(** * Pumpkin handler: parsing of server output and formatting of commands

    A shallow embedding of [pumpkin_handler/__init__.py].  A text is a
    Python [str]: a list of Unicode code points.  Regular expressions are
    kept as syntax trees that follow the pattern strings of the source
    token by token, and are run by a backtracking matcher with the
    priorities of [re]: greedy repetition that backs off one character at
    a time, and an optional part that is tried before it is skipped.  The
    classes [\d], [\s] and [\w] are those of [re] on [str] patterns, read
    off the tables of the interpreter (CPython 3.11, Unicode 14.0). *)

From Stdlib Require Import String Ascii List Bool Arith NArith ZArith Lia.
From Stdlib Require Import DecimalString.
Import ListNotations.

(** ** Texts *)

Definition char : Type := N.
Definition str : Type := list char.

(** The code point of an ASCII character, and the text of an ASCII
    literal. *)
Definition ch (a : ascii) : char := N_of_ascii a.
Arguments ch : simpl never.

Fixpoint u (s : string) : str :=
  match s with
  | EmptyString => []
  | String a s' => ch a :: u s'
  end.
Arguments u : simpl never.

Fixpoint take (n : nat) (s : str) : str :=
  match n, s with
  | S n', a :: s' => a :: take n' s'
  | _, _ => []
  end.

Fixpoint drop (n : nat) (s : str) : str :=
  match n, s with
  | S n', _ :: s' => drop n' s'
  | _, _ => s
  end.

Fixpoint all_chars (p : char -> bool) (s : str) : bool :=
  match s with
  | [] => true
  | a :: s' => p a && all_chars p s'
  end.

(** [strip p s] removes the literal prefix [p] from [s]. *)
Fixpoint strip (p s : str) : option str :=
  match p, s with
  | [], _ => Some s
  | a :: p', b :: s' => if N.eqb a b then strip p' s' else None
  | _ :: _, [] => None
  end.

(** ** The character tables of the interpreter *)

Definition between (lo hi : N) (a : char) : bool :=
  N.leb lo a && N.leb a hi.

Definition in_ranges (t : list (N * N)) (a : char) : bool :=
  existsb (fun r => between (fst r) (snd r) a) t.

(** Decimal digits ([str.isdecimal], the class [\d]): runs of ten code
    points, each run the digits 0 to 9 of one script. *)
Definition decimal_ranges : list (N * N) :=
  [
   (48, 57); (1632, 1641); (1776, 1785); (1984, 1993); (2406, 2415); (2534,
   2543); (2662, 2671); (2790, 2799); (2918, 2927); (3046, 3055); (3174,
   3183); (3302, 3311); (3430, 3439); (3558, 3567); (3664, 3673); (3792,
   3801); (3872, 3881); (4160, 4169); (4240, 4249); (6112, 6121); (6160,
   6169); (6470, 6479); (6608, 6617); (6784, 6793); (6800, 6809); (6992,
   7001); (7088, 7097); (7232, 7241); (7248, 7257); (42528, 42537); (43216,
   43225); (43264, 43273); (43472, 43481); (43504, 43513); (43600, 43609);
   (44016, 44025); (65296, 65305); (66720, 66729); (68912, 68921); (69734,
   69743); (69872, 69881); (69942, 69951); (70096, 70105); (70384, 70393);
   (70736, 70745); (70864, 70873); (71248, 71257); (71360, 71369); (71472,
   71481); (71904, 71913); (72016, 72025); (72784, 72793); (73040, 73049);
   (73120, 73129); (92768, 92777); (92864, 92873); (93008, 93017); (120782,
   120831); (123200, 123209); (123632, 123641); (125264, 125273); (130032,
   130041)
  ]%N.

(** White space ([str.isspace], the class [\s]). *)
Definition space_ranges : list (N * N) :=
  [
   (9, 13); (28, 32); (133, 133); (160, 160); (5760, 5760); (8192, 8202);
   (8232, 8233); (8239, 8239); (8287, 8287); (12288, 12288)
  ]%N.

(** Word characters (alphanumeric by [str.isalnum], or the underscore:
    the class [\w]). *)
Definition word_ranges : list (N * N) :=
  [
   (48, 57); (65, 90); (95, 95); (97, 122); (170, 170); (178, 179); (181,
   181); (185, 186); (188, 190); (192, 214); (216, 246); (248, 705); (710,
   721); (736, 740); (748, 748); (750, 750); (880, 884); (886, 887); (890,
   893); (895, 895); (902, 902); (904, 906); (908, 908); (910, 929); (931,
   1013); (1015, 1153); (1162, 1327); (1329, 1366); (1369, 1369); (1376,
   1416); (1488, 1514); (1519, 1522); (1568, 1610); (1632, 1641); (1646,
   1647); (1649, 1747); (1749, 1749); (1765, 1766); (1774, 1788); (1791,
   1791); (1808, 1808); (1810, 1839); (1869, 1957); (1969, 1969); (1984,
   2026); (2036, 2037); (2042, 2042); (2048, 2069); (2074, 2074); (2084,
   2084); (2088, 2088); (2112, 2136); (2144, 2154); (2160, 2183); (2185,
   2190); (2208, 2249); (2308, 2361); (2365, 2365); (2384, 2384); (2392,
   2401); (2406, 2415); (2417, 2432); (2437, 2444); (2447, 2448); (2451,
   2472); (2474, 2480); (2482, 2482); (2486, 2489); (2493, 2493); (2510,
   2510); (2524, 2525); (2527, 2529); (2534, 2545); (2548, 2553); (2556,
   2556); (2565, 2570); (2575, 2576); (2579, 2600); (2602, 2608); (2610,
   2611); (2613, 2614); (2616, 2617); (2649, 2652); (2654, 2654); (2662,
   2671); (2674, 2676); (2693, 2701); (2703, 2705); (2707, 2728); (2730,
   2736); (2738, 2739); (2741, 2745); (2749, 2749); (2768, 2768); (2784,
   2785); (2790, 2799); (2809, 2809); (2821, 2828); (2831, 2832); (2835,
   2856); (2858, 2864); (2866, 2867); (2869, 2873); (2877, 2877); (2908,
   2909); (2911, 2913); (2918, 2927); (2929, 2935); (2947, 2947); (2949,
   2954); (2958, 2960); (2962, 2965); (2969, 2970); (2972, 2972); (2974,
   2975); (2979, 2980); (2984, 2986); (2990, 3001); (3024, 3024); (3046,
   3058); (3077, 3084); (3086, 3088); (3090, 3112); (3114, 3129); (3133,
   3133); (3160, 3162); (3165, 3165); (3168, 3169); (3174, 3183); (3192,
   3198); (3200, 3200); (3205, 3212); (3214, 3216); (3218, 3240); (3242,
   3251); (3253, 3257); (3261, 3261); (3293, 3294); (3296, 3297); (3302,
   3311); (3313, 3314); (3332, 3340); (3342, 3344); (3346, 3386); (3389,
   3389); (3406, 3406); (3412, 3414); (3416, 3425); (3430, 3448); (3450,
   3455); (3461, 3478); (3482, 3505); (3507, 3515); (3517, 3517); (3520,
   3526); (3558, 3567); (3585, 3632); (3634, 3635); (3648, 3654); (3664,
   3673); (3713, 3714); (3716, 3716); (3718, 3722); (3724, 3747); (3749,
   3749); (3751, 3760); (3762, 3763); (3773, 3773); (3776, 3780); (3782,
   3782); (3792, 3801); (3804, 3807); (3840, 3840); (3872, 3891); (3904,
   3911); (3913, 3948); (3976, 3980); (4096, 4138); (4159, 4169); (4176,
   4181); (4186, 4189); (4193, 4193); (4197, 4198); (4206, 4208); (4213,
   4225); (4238, 4238); (4240, 4249); (4256, 4293); (4295, 4295); (4301,
   4301); (4304, 4346); (4348, 4680); (4682, 4685); (4688, 4694); (4696,
   4696); (4698, 4701); (4704, 4744); (4746, 4749); (4752, 4784); (4786,
   4789); (4792, 4798); (4800, 4800); (4802, 4805); (4808, 4822); (4824,
   4880); (4882, 4885); (4888, 4954); (4969, 4988); (4992, 5007); (5024,
   5109); (5112, 5117); (5121, 5740); (5743, 5759); (5761, 5786); (5792,
   5866); (5870, 5880); (5888, 5905); (5919, 5937); (5952, 5969); (5984,
   5996); (5998, 6000); (6016, 6067); (6103, 6103); (6108, 6108); (6112,
   6121); (6128, 6137); (6160, 6169); (6176, 6264); (6272, 6276); (6279,
   6312); (6314, 6314); (6320, 6389); (6400, 6430); (6470, 6509); (6512,
   6516); (6528, 6571); (6576, 6601); (6608, 6618); (6656, 6678); (6688,
   6740); (6784, 6793); (6800, 6809); (6823, 6823); (6917, 6963); (6981,
   6988); (6992, 7001); (7043, 7072); (7086, 7141); (7168, 7203); (7232,
   7241); (7245, 7293); (7296, 7304); (7312, 7354); (7357, 7359); (7401,
   7404); (7406, 7411); (7413, 7414); (7418, 7418); (7424, 7615); (7680,
   7957); (7960, 7965); (7968, 8005); (8008, 8013); (8016, 8023); (8025,
   8025); (8027, 8027); (8029, 8029); (8031, 8061); (8064, 8116); (8118,
   8124); (8126, 8126); (8130, 8132); (8134, 8140); (8144, 8147); (8150,
   8155); (8160, 8172); (8178, 8180); (8182, 8188); (8304, 8305); (8308,
   8313); (8319, 8329); (8336, 8348); (8450, 8450); (8455, 8455); (8458,
   8467); (8469, 8469); (8473, 8477); (8484, 8484); (8486, 8486); (8488,
   8488); (8490, 8493); (8495, 8505); (8508, 8511); (8517, 8521); (8526,
   8526); (8528, 8585); (9312, 9371); (9450, 9471); (10102, 10131); (11264,
   11492); (11499, 11502); (11506, 11507); (11517, 11517); (11520, 11557);
   (11559, 11559); (11565, 11565); (11568, 11623); (11631, 11631); (11648,
   11670); (11680, 11686); (11688, 11694); (11696, 11702); (11704, 11710);
   (11712, 11718); (11720, 11726); (11728, 11734); (11736, 11742); (11823,
   11823); (12293, 12295); (12321, 12329); (12337, 12341); (12344, 12348);
   (12353, 12438); (12445, 12447); (12449, 12538); (12540, 12543); (12549,
   12591); (12593, 12686); (12690, 12693); (12704, 12735); (12784, 12799);
   (12832, 12841); (12872, 12879); (12881, 12895); (12928, 12937); (12977,
   12991); (13312, 19903); (19968, 42124); (42192, 42237); (42240, 42508);
   (42512, 42539); (42560, 42606); (42623, 42653); (42656, 42735); (42775,
   42783); (42786, 42888); (42891, 42954); (42960, 42961); (42963, 42963);
   (42965, 42969); (42994, 43009); (43011, 43013); (43015, 43018); (43020,
   43042); (43056, 43061); (43072, 43123); (43138, 43187); (43216, 43225);
   (43250, 43255); (43259, 43259); (43261, 43262); (43264, 43301); (43312,
   43334); (43360, 43388); (43396, 43442); (43471, 43481); (43488, 43492);
   (43494, 43518); (43520, 43560); (43584, 43586); (43588, 43595); (43600,
   43609); (43616, 43638); (43642, 43642); (43646, 43695); (43697, 43697);
   (43701, 43702); (43705, 43709); (43712, 43712); (43714, 43714); (43739,
   43741); (43744, 43754); (43762, 43764); (43777, 43782); (43785, 43790);
   (43793, 43798); (43808, 43814); (43816, 43822); (43824, 43866); (43868,
   43881); (43888, 44002); (44016, 44025); (44032, 55203); (55216, 55238);
   (55243, 55291); (63744, 64109); (64112, 64217); (64256, 64262); (64275,
   64279); (64285, 64285); (64287, 64296); (64298, 64310); (64312, 64316);
   (64318, 64318); (64320, 64321); (64323, 64324); (64326, 64433); (64467,
   64829); (64848, 64911); (64914, 64967); (65008, 65019); (65136, 65140);
   (65142, 65276); (65296, 65305); (65313, 65338); (65345, 65370); (65382,
   65470); (65474, 65479); (65482, 65487); (65490, 65495); (65498, 65500);
   (65536, 65547); (65549, 65574); (65576, 65594); (65596, 65597); (65599,
   65613); (65616, 65629); (65664, 65786); (65799, 65843); (65856, 65912);
   (65930, 65931); (66176, 66204); (66208, 66256); (66273, 66299); (66304,
   66339); (66349, 66378); (66384, 66421); (66432, 66461); (66464, 66499);
   (66504, 66511); (66513, 66517); (66560, 66717); (66720, 66729); (66736,
   66771); (66776, 66811); (66816, 66855); (66864, 66915); (66928, 66938);
   (66940, 66954); (66956, 66962); (66964, 66965); (66967, 66977); (66979,
   66993); (66995, 67001); (67003, 67004); (67072, 67382); (67392, 67413);
   (67424, 67431); (67456, 67461); (67463, 67504); (67506, 67514); (67584,
   67589); (67592, 67592); (67594, 67637); (67639, 67640); (67644, 67644);
   (67647, 67669); (67672, 67702); (67705, 67742); (67751, 67759); (67808,
   67826); (67828, 67829); (67835, 67867); (67872, 67897); (67968, 68023);
   (68028, 68047); (68050, 68096); (68112, 68115); (68117, 68119); (68121,
   68149); (68160, 68168); (68192, 68222); (68224, 68255); (68288, 68295);
   (68297, 68324); (68331, 68335); (68352, 68405); (68416, 68437); (68440,
   68466); (68472, 68497); (68521, 68527); (68608, 68680); (68736, 68786);
   (68800, 68850); (68858, 68899); (68912, 68921); (69216, 69246); (69248,
   69289); (69296, 69297); (69376, 69415); (69424, 69445); (69457, 69460);
   (69488, 69505); (69552, 69579); (69600, 69622); (69635, 69687); (69714,
   69743); (69745, 69746); (69749, 69749); (69763, 69807); (69840, 69864);
   (69872, 69881); (69891, 69926); (69942, 69951); (69956, 69956); (69959,
   69959); (69968, 70002); (70006, 70006); (70019, 70066); (70081, 70084);
   (70096, 70106); (70108, 70108); (70113, 70132); (70144, 70161); (70163,
   70187); (70272, 70278); (70280, 70280); (70282, 70285); (70287, 70301);
   (70303, 70312); (70320, 70366); (70384, 70393); (70405, 70412); (70415,
   70416); (70419, 70440); (70442, 70448); (70450, 70451); (70453, 70457);
   (70461, 70461); (70480, 70480); (70493, 70497); (70656, 70708); (70727,
   70730); (70736, 70745); (70751, 70753); (70784, 70831); (70852, 70853);
   (70855, 70855); (70864, 70873); (71040, 71086); (71128, 71131); (71168,
   71215); (71236, 71236); (71248, 71257); (71296, 71338); (71352, 71352);
   (71360, 71369); (71424, 71450); (71472, 71483); (71488, 71494); (71680,
   71723); (71840, 71922); (71935, 71942); (71945, 71945); (71948, 71955);
   (71957, 71958); (71960, 71983); (71999, 71999); (72001, 72001); (72016,
   72025); (72096, 72103); (72106, 72144); (72161, 72161); (72163, 72163);
   (72192, 72192); (72203, 72242); (72250, 72250); (72272, 72272); (72284,
   72329); (72349, 72349); (72368, 72440); (72704, 72712); (72714, 72750);
   (72768, 72768); (72784, 72812); (72818, 72847); (72960, 72966); (72968,
   72969); (72971, 73008); (73030, 73030); (73040, 73049); (73056, 73061);
   (73063, 73064); (73066, 73097); (73112, 73112); (73120, 73129); (73440,
   73458); (73648, 73648); (73664, 73684); (73728, 74649); (74752, 74862);
   (74880, 75075); (77712, 77808); (77824, 78894); (82944, 83526); (92160,
   92728); (92736, 92766); (92768, 92777); (92784, 92862); (92864, 92873);
   (92880, 92909); (92928, 92975); (92992, 92995); (93008, 93017); (93019,
   93025); (93027, 93047); (93053, 93071); (93760, 93846); (93952, 94026);
   (94032, 94032); (94099, 94111); (94176, 94177); (94179, 94179); (94208,
   100343); (100352, 101589); (101632, 101640); (110576, 110579); (110581,
   110587); (110589, 110590); (110592, 110882); (110928, 110930); (110948,
   110951); (110960, 111355); (113664, 113770); (113776, 113788); (113792,
   113800); (113808, 113817); (119520, 119539); (119648, 119672); (119808,
   119892); (119894, 119964); (119966, 119967); (119970, 119970); (119973,
   119974); (119977, 119980); (119982, 119993); (119995, 119995); (119997,
   120003); (120005, 120069); (120071, 120074); (120077, 120084); (120086,
   120092); (120094, 120121); (120123, 120126); (120128, 120132); (120134,
   120134); (120138, 120144); (120146, 120485); (120488, 120512); (120514,
   120538); (120540, 120570); (120572, 120596); (120598, 120628); (120630,
   120654); (120656, 120686); (120688, 120712); (120714, 120744); (120746,
   120770); (120772, 120779); (120782, 120831); (122624, 122654); (123136,
   123180); (123191, 123197); (123200, 123209); (123214, 123214); (123536,
   123565); (123584, 123627); (123632, 123641); (124896, 124902); (124904,
   124907); (124909, 124910); (124912, 124926); (124928, 125124); (125127,
   125135); (125184, 125251); (125259, 125259); (125264, 125273); (126065,
   126123); (126125, 126127); (126129, 126132); (126209, 126253); (126255,
   126269); (126464, 126467); (126469, 126495); (126497, 126498); (126500,
   126500); (126503, 126503); (126505, 126514); (126516, 126519); (126521,
   126521); (126523, 126523); (126530, 126530); (126535, 126535); (126537,
   126537); (126539, 126539); (126541, 126543); (126545, 126546); (126548,
   126548); (126551, 126551); (126553, 126553); (126555, 126555); (126557,
   126557); (126559, 126559); (126561, 126562); (126564, 126564); (126567,
   126570); (126572, 126578); (126580, 126583); (126585, 126588); (126590,
   126590); (126592, 126601); (126603, 126619); (126625, 126627); (126629,
   126633); (126635, 126651); (127232, 127244); (130032, 130041); (131072,
   173791); (173824, 177976); (177984, 178205); (178208, 183969); (183984,
   191456); (194560, 195101); (196608, 201546)
  ]%N.

(** The digit that a decimal character stands for. *)
Definition digit_value (a : char) : N :=
  match find (fun r => between (fst r) (snd r) a) decimal_ranges with
  | Some r => ((a - fst r) mod 10)%N
  | None => 0%N
  end.

(** ** Regular expressions, as [re] runs them *)

Module Re.

(** Members of a bracketed set. *)
Inductive citem : Type :=
| Ch (a : char)             (* a literal character *)
| Rng (lo hi : char)        (* lo-hi *)
| Digit                     (* \d *)
| Space                     (* \s *)
| Word.                     (* \w *)

Inductive cclass : Type :=
| AnyOf (l : list citem)    (* [...]  *)
| NoneOf (l : list citem)   (* [^...] *)
| Dot.                      (* .  : everything but a line feed *)

Definition is_digit (a : char) : bool := in_ranges decimal_ranges a.
Definition is_space (a : char) : bool := in_ranges space_ranges a.
Definition is_word (a : char) : bool := in_ranges word_ranges a.

Definition in_item (i : citem) (a : char) : bool :=
  match i with
  | Ch b => N.eqb a b
  | Rng lo hi => between lo hi a
  | Digit => is_digit a
  | Space => is_space a
  | Word => is_word a
  end.

Definition in_class (c : cclass) (a : char) : bool :=
  match c with
  | AnyOf l => existsb (fun i => in_item i a) l
  | NoneOf l => negb (existsb (fun i => in_item i a) l)
  | Dot => negb (N.eqb a 10)
  end.

Inductive regex : Type :=
| Lit (p : str)                              (* literal text *)
| Rep (c : cclass) (lo : nat) (hi : option nat)
                                             (* c{lo,hi}; c+ is lo=1, c* is lo=0 *)
| Cat (r1 r2 : regex)
| Opt (r : regex)                            (* (?:r)? *)
| Group (name : option string) (r : regex).  (* (?P<name>r) and (r) *)

(** What a match object holds: the text of the named groups, the latest
    binding first.  Groups without a name are matched and not recorded:
    the handler reads groups by name only. *)
Definition captures : Type := list (string * str).

Fixpoint group (m : captures) (name : string) : option str :=
  match m with
  | [] => None
  | (n, v) :: m' => if String.eqb n name then Some v else group m' name
  end.

Definition cont : Type := str -> captures -> option captures.

(** Length of the longest run of [c] at the head of [s]. *)
Fixpoint run (c : cclass) (s : str) : nat :=
  match s with
  | a :: s' => if in_class c a then S (run c s') else 0
  | [] => 0
  end.

Definition reach (c : cclass) (hi : option nat) (s : str) : nat :=
  match hi with
  | Some h => Nat.min h (run c s)
  | None => run c s
  end.

(** Greedy repetition: the tail is tried after [n] characters, then after
    [n-1], down to [lo]. *)
Fixpoint back_off (k : str -> option captures) (s : str) (lo n : nat)
  : option captures :=
  if Nat.ltb n lo then None
  else match k (drop n s) with
       | Some m => Some m
       | None => match n with
                 | O => None
                 | S n' => back_off k s lo n'
                 end
       end.

(** The text between the start [s] of a group and what is left, [s']. *)
Definition consumed (s s' : str) : str :=
  take (length s - length s') s.

Fixpoint exec (r : regex) (s : str) (m : captures) (k : cont)
  : option captures :=
  match r with
  | Lit p =>
      match strip p s with
      | Some s' => k s' m
      | None => None
      end
  | Rep c lo hi => back_off (fun s' => k s' m) s lo (reach c hi s)
  | Cat r1 r2 => exec r1 s m (fun s' m' => exec r2 s' m' k)
  | Opt r1 =>
      match exec r1 s m k with
      | Some m' => Some m'
      | None => k s m
      end
  | Group None r1 => exec r1 s m k
  | Group (Some n) r1 =>
      exec r1 s m (fun s' m' => k s' ((n, consumed s s') :: m'))
  end.

(** [Pattern.fullmatch]: the match has to end where the text ends. *)
Definition at_end : cont :=
  fun s m => match s with
             | [] => Some m
             | _ :: _ => None
             end.

Definition fullmatch (r : regex) (s : str) : option captures :=
  exec r s [] at_end.

(** Declarative reading of a pattern: [matches r w m m'] when [r] can
    consume exactly [w], taking the captures from [m] to [m']. *)
Definition fits (hi : option nat) (n : nat) : Prop :=
  match hi with
  | Some h => n <= h
  | None => True
  end.

Inductive matches : regex -> str -> captures -> captures -> Prop :=
| M_Lit p m : matches (Lit p) p m m
| M_Rep c lo hi w m :
    all_chars (in_class c) w = true ->
    lo <= length w -> fits hi (length w) ->
    matches (Rep c lo hi) w m m
| M_Cat r1 r2 w1 w2 m0 m1 m2 :
    matches r1 w1 m0 m1 -> matches r2 w2 m1 m2 ->
    matches (Cat r1 r2) (w1 ++ w2) m0 m2
| M_Opt_some r w m m' : matches r w m m' -> matches (Opt r) w m m'
| M_Opt_none r m : matches (Opt r) [] m m
| M_Group_anon r w m m' :
    matches r w m m' -> matches (Group None r) w m m'
| M_Group_named n r w m m' :
    matches r w m m' -> matches (Group (Some n) r) w m ((n, w) :: m').

End Re.

Import Re.

Declare Scope re_scope.
Delimit Scope re_scope with re.
Bind Scope re_scope with regex.
Infix ">>" := Cat (at level 61, right associativity) : re_scope.

Definition plus (c : cclass) : regex := Rep c 1 None.
Definition star (c : cclass) : regex := Rep c 0 None.
Definition named (n : string) (r : regex) : regex := Group (Some n) r.
Definition unnamed (r : regex) : regex := Group None r.

(** ** The record of a line: [mcdreforged.info_reactor.info.Info]

    The handler receives and fills the [Info] objects of the MCDReforged
    library.  The fields and derived properties below are those the
    handler reads or writes, as that library defines them: a record is
    from the server or from the console, it is a player's when it is from
    the server and its [player] is set, and it is a user's when it is from
    the console or a player's. *)

Inductive InfoSource : Type := SERVER | CONSOLE.

Definition InfoSource_eqb (a b : InfoSource) : bool :=
  match a, b with
  | SERVER, SERVER | CONSOLE, CONSOLE => true
  | _, _ => false
  end.

Record Info : Type := mkInfo {
  source : InfoSource;
  raw_content : str;
  content : option str;
  player : option str;
  hour : option Z;
  min : option Z;
  sec : option Z;
  logging_level : option str
}.

(** [Info(source, raw_content)]: every other field starts as [None]. *)
Definition Info_init (src : InfoSource) (raw : str) : Info :=
  mkInfo src raw None None None None None None.

Definition is_from_console (i : Info) : bool := InfoSource_eqb (source i) CONSOLE.
Definition is_from_server (i : Info) : bool := InfoSource_eqb (source i) SERVER.
Definition is_player (i : Info) : bool :=
  is_from_server i && match player i with Some _ => true | None => false end.
Definition is_user (i : Info) : bool := is_from_console i || is_player i.

Definition set_content (v : option str) (i : Info) : Info :=
  mkInfo (source i) (raw_content i) v (player i) (hour i) (min i) (sec i)
         (logging_level i).
Definition set_player (v : option str) (i : Info) : Info :=
  mkInfo (source i) (raw_content i) (content i) v (hour i) (min i) (sec i)
         (logging_level i).
Definition set_hour (v : option Z) (i : Info) : Info :=
  mkInfo (source i) (raw_content i) (content i) (player i) v (min i) (sec i)
         (logging_level i).
Definition set_min (v : option Z) (i : Info) : Info :=
  mkInfo (source i) (raw_content i) (content i) (player i) (hour i) v (sec i)
         (logging_level i).
Definition set_sec (v : option Z) (i : Info) : Info :=
  mkInfo (source i) (raw_content i) (content i) (player i) (hour i) (min i) v
         (logging_level i).
Definition set_logging_level (v : option str) (i : Info) : Info :=
  mkInfo (source i) (raw_content i) (content i) (player i) (hour i) (min i)
         (sec i) v.

(** What [time.localtime(time.time())] gives, as far as it is read. *)
Record struct_time : Type := mkTime { tm_hour : Z; tm_min : Z; tm_sec : Z }.

(** ** Methods as computations on the record they are handed

    A method either returns or raises, and in both cases leaves the
    object it was given in some state. *)

Inductive exn : Type :=
| ValueError (msg : str)
| TypeError (msg : str)
| IndexError (msg : str).

Inductive outcome (A : Type) : Type :=
| Ret (a : A)
| Raise (e : exn).
Arguments Ret {A} a.
Arguments Raise {A} e.

Definition M (A : Type) : Type := Info -> outcome A * Info.

Definition ret {A} (a : A) : M A := fun i => (Ret a, i).
Definition raise {A} (e : exn) : M A := fun i => (Raise e, i).
Definition bind {A B} (c : M A) (f : A -> M B) : M B :=
  fun i => match c i with
           | (Ret a, i') => f a i'
           | (Raise e, i') => (Raise e, i')
           end.
Definition attr {A} (f : Info -> A) : M A := fun i => (Ret (f i), i).
Definition assign (f : Info -> Info) : M unit := fun i => (Ret tt, f i).

Notation "x <- c ;; k" := (bind c (fun x => k))
  (at level 100, c at next level, right associativity).
Notation "c ;; k" := (bind c (fun _ => k))
  (at level 100, right associativity).

Definition result {A} (c : M A) (i : Info) : outcome A := fst (c i).
Definition after {A} (c : M A) (i : Info) : Info := snd (c i).

(** [pattern.fullmatch(x)]: a [TypeError] when [x] is [None]. *)
Definition re_fullmatch (r : regex) (x : option str) : M (option captures) :=
  match x with
  | Some s => ret (fullmatch r s)
  | None => raise (TypeError (u "expected string or bytes-like object, got 'NoneType'"))
  end.

(** [m[name]] *)
Definition getitem (m : captures) (name : string) : M str :=
  match group m name with
  | Some v => ret v
  | None => raise (IndexError (u "no such group"))
  end.

(** The longest text of digits that [int] converts:
    [sys.get_int_max_str_digits()], as the interpreter starts. *)
Definition int_max_str_digits : nat := 4300.

Fixpoint digits_value (s : str) (acc : Z) : option Z :=
  match s with
  | [] => Some acc
  | a :: s' =>
      if is_digit a
      then digits_value s' (10 * acc + Z.of_N (digit_value a))%Z
      else None
  end.

Definition decimal_text (n : nat) : str := u (NilZero.string_of_uint (Nat.to_uint n)).

(** [int(x)] on a text of decimal digits: a [ValueError] when the digits
    are more than the limit.  Any other text is given as the
    [ValueError] of an invalid literal; the handler passes none. *)
Definition int (s : str) : M Z :=
  match s with
  | [] => raise (ValueError (u "invalid literal for int() with base 10"))
  | _ :: _ =>
      match digits_value s 0%Z with
      | Some z =>
          if Nat.ltb int_max_str_digits (length s) then
            raise (ValueError
                     (u "Exceeds the limit (" ++ decimal_text int_max_str_digits
                      ++ u " digits) for integer string conversion: value has "
                      ++ decimal_text (length s)
                      ++ u " digits; use sys.set_int_max_str_digits() to increase the limit"))
          else ret z
      | None => raise (ValueError (u "invalid literal for int() with base 10"))
      end
  end.

(** ** The handler *)

Definition get_name : str := u "pumpkin_handler".
Definition get_stop_command : str := u "stop".

(** Pattern [\[(?P<logging>[^]]+)\](?: \((\d+)\))? (?P<content>.* )], the
    blank before the last parenthesis apart. *)
Definition get_content_parsing_formatter : regex :=
  (Lit (u "[") >> named "logging" (plus (NoneOf [Ch (ch "]")])) >> Lit (u "]") >>
   Opt (Lit (u " (") >> unnamed (plus (AnyOf [Digit])) >> Lit (u ")")) >>
   Lit (u " ") >> named "content" (star Dot))%re.

(** A single pattern is wrapped into a list. *)
Definition get_content_parsers : list regex := [get_content_parsing_formatter].

(** The [for ... else] over the parsers: the first match, if any. *)
Fixpoint first_parsed (parsers : list regex) (x : option str)
  : M (option captures) :=
  match parsers with
  | [] => ret None
  | parser :: rest =>
      parsed <- re_fullmatch parser x ;;
      match parsed with
      | Some m => ret (Some m)
      | None => first_parsed rest x
      end
  end.

(** ['Unrecognized input: ' + info.content] *)
Definition unrecognized (x : option str) : M exn :=
  match x with
  | Some s => ret (ValueError (u "Unrecognized input: " ++ s))
  | None => raise (TypeError (u "can only concatenate str (not 'NoneType') to str"))
  end.

(** [t] is the local time read when the parser runs. *)
Definition _content_parse (t : struct_time) : M unit :=
  x <- attr content ;;
  found <- first_parsed get_content_parsers x ;;
  match found with
  | None => e <- unrecognized x ;; raise e
  | Some parsed =>
      assign (set_hour (Some (tm_hour t))) ;;
      assign (set_min (Some (tm_min t))) ;;
      assign (set_sec (Some (tm_sec t))) ;;
      lv <- getitem parsed "logging" ;;
      assign (set_logging_level (Some lv)) ;;
      c <- getitem parsed "content" ;;
      assign (set_content (Some c))
  end.

(** Pattern [\<chat\> (?P<name>[^:]+): (?P<message>.* )], the blank before
    the last parenthesis apart. *)
Definition player_message_regex : regex :=
  (Lit (u "<chat> ") >> named "name" (plus (NoneOf [Ch (ch ":")])) >>
   Lit (u ": ") >> named "message" (star Dot))%re.

Definition get_player_message_parsing_formatter : list regex :=
  [player_message_regex].

Definition get_player_message_parsers : list regex :=
  get_player_message_parsing_formatter.

(** [[a-zA-Z0-9_]{3,16}] *)
Definition player_name_regex : regex :=
  Rep (AnyOf [Rng (ch "a") (ch "z"); Rng (ch "A") (ch "Z");
              Rng (ch "0") (ch "9"); Ch (ch "_")]) 3 (Some 16).

Definition _verify_player_name (name : str) : bool :=
  match fullmatch player_name_regex name with
  | Some _ => true
  | None => false
  end.

(** The loop of [parse_server_stdout] over the chat patterns: it stops at
    the first pattern that matches with a name that passes. *)
Fixpoint scan_player_message (parsers : list regex) : M unit :=
  match parsers with
  | [] => ret tt
  | parser :: rest =>
      x <- attr content ;;
      parsed <- re_fullmatch parser x ;;
      match parsed with
      | None => scan_player_message rest
      | Some m =>
          name <- getitem m "name" ;;
          if _verify_player_name name then
            message <- getitem m "message" ;;
            assign (set_player (Some name)) ;;
            assign (set_content (Some message))
          else scan_player_message rest
      end
  end.

(** [(?P<name>[^ ]+) joined the game] *)
Definition player_joined_regex : regex :=
  (named "name" (plus (NoneOf [Ch (ch " ")])) >> Lit (u " joined the game"))%re.

Definition parse_player_joined : M (option str) :=
  is_u <- attr is_user ;;
  if negb is_u then
    x <- attr content ;;
    parsed <- re_fullmatch player_joined_regex x ;;
    match parsed with
    | Some m =>
        name <- getitem m "name" ;;
        if _verify_player_name name then
          name' <- getitem m "name" ;; ret (Some name')
        else ret None
    | None => ret None
    end
  else ret None.

(** [(?P<name>[^ ]+) left the game] *)
Definition player_left_regex : regex :=
  (named "name" (plus (NoneOf [Ch (ch " ")])) >> Lit (u " left the game"))%re.

Definition parse_player_left : M (option str) :=
  is_u <- attr is_user ;;
  if negb is_u then
    x <- attr content ;;
    parsed <- re_fullmatch player_left_regex x ;;
    match parsed with
    | Some m =>
        name <- getitem m "name" ;;
        if _verify_player_name name then
          name' <- getitem m "name" ;; ret (Some name')
        else ret None
    | None => ret None
    end
  else ret None.

(** [Starting Pumpkin ([^ ]+) \([a-z0-9_]{8}\) for Minecraft (?P<version>.+) \(Protocol (d+)\)]:
    the last group is the letter [d], once or more. *)
Definition server_version_regex : regex :=
  (Lit (u "Starting Pumpkin ") >> unnamed (plus (NoneOf [Ch (ch " ")])) >>
   Lit (u " (") >>
   Rep (AnyOf [Rng (ch "a") (ch "z"); Rng (ch "0") (ch "9"); Ch (ch "_")])
       8 (Some 8) >>
   Lit (u ") for Minecraft ") >> named "version" (plus Dot) >>
   Lit (u " (Protocol ") >> unnamed (plus (AnyOf [Ch (ch "d")])) >>
   Lit (u ")"))%re.

Definition parse_server_version : M (option str) :=
  is_u <- attr is_user ;;
  if negb is_u then
    x <- attr content ;;
    parsed <- re_fullmatch server_version_regex x ;;
    match parsed with
    | Some m => v <- getitem m "version" ;; ret (Some v)
    | None => ret None
    end
  else ret None.

(** [You now can connect to the server; listening on (?P<ip>\S+):(?P<port>\d+)] *)
Definition server_address_regex : regex :=
  (Lit (u "You now can connect to the server; listening on ") >>
   named "ip" (plus (NoneOf [Space])) >> Lit (u ":") >>
   named "port" (plus (AnyOf [Digit])))%re.

Definition parse_server_address : M (option (str * Z)) :=
  is_u <- attr is_user ;;
  if negb is_u then
    x <- attr content ;;
    parsed <- re_fullmatch server_address_regex x ;;
    match parsed with
    | Some m =>
        ip <- getitem m "ip" ;;
        p <- getitem m "port" ;;
        port <- int p ;;
        ret (Some (ip, port))
    | None => ret None
    end
  else ret None.

(** [info.is_from_server and pattern.fullmatch(info.content) is not None]:
    the pattern is not tried on a record that is not from the server. *)
Definition test_server_startup_done : M bool :=
  s <- attr is_from_server ;;
  if s then
    x <- attr content ;;
    parsed <- re_fullmatch server_address_regex x ;;
    ret (match parsed with Some _ => true | None => false end)
  else ret false.

(** [RCON running on [\w.]+:\d+] *)
Definition rcon_started_regex : regex :=
  (Lit (u "RCON running on ") >> plus (AnyOf [Word; Ch (ch ".")]) >>
   Lit (u ":") >> plus (AnyOf [Digit]))%re.

Definition test_rcon_started : M bool :=
  s <- attr is_from_server ;;
  if s then
    x <- attr content ;;
    parsed <- re_fullmatch rcon_started_regex x ;;
    ret (match parsed with Some _ => true | None => false end)
  else ret false.

(** [Stopping the server] *)
Definition server_stopping_regex : regex := Lit (u "Stopping the server").

Definition test_server_stopping : M bool :=
  s <- attr is_from_server ;;
  if s then
    x <- attr content ;;
    parsed <- re_fullmatch server_stopping_regex x ;;
    ret (match parsed with Some _ => true | None => false end)
  else ret false.

Section Collaborators.

(** Supplied by MCDReforged: the remover of console colour codes, the
    rich text values with their serialiser, and the server information
    that the command builders receive and do not read. *)
Variable clean_console_color_code : str -> str.
Variable RTextBase : Type.
Variable to_json_str : RTextBase -> str.
Variable ServerInformation : Type.

(** [text] is a [str] by its type, so the [TypeError] branch is not met. *)
Definition _get_server_stdout_raw_result (text : str) : Info :=
  let raw_result := Info_init SERVER text in
  let raw_result := set_content (Some (clean_console_color_code text)) raw_result in
  let raw_result := set_hour (Some 0%Z) raw_result in
  let raw_result := set_min (Some 0%Z) raw_result in
  set_sec (Some 0%Z) raw_result.

(** A call on a record of the caller's own, handed back when it returns. *)
Definition returning (c : M unit) (i : Info) : outcome Info :=
  match c i with
  | (Ret _, i') => Ret i'
  | (Raise e, _) => Raise e
  end.

(** The inherited [AbstractServerHandler.parse_server_stdout]: the raw
    record, then the content parser run on it. *)
Definition super_parse_server_stdout (t : struct_time) (text : str)
  : outcome Info :=
  returning (_content_parse t) (_get_server_stdout_raw_result text).

Definition parse_server_stdout (t : struct_time) (text : str)
  : outcome Info :=
  match super_parse_server_stdout t text with
  | Ret result => returning (scan_player_message get_player_message_parsers) result
  | Raise e => Raise e
  end.

(** [MessageText]: a [str] or a rich text. *)
Inductive MessageText : Type :=
| Plain (s : str)
| Rich (r : RTextBase).

Definition quote : char := 34%N.
Definition backslash : char := 92%N.

Definition hex (n : N) : char :=
  if N.ltb n 10 then (48 + n)%N else (87 + n)%N.

(** [json.encoder.ESCAPE_DCT], as used with [ensure_ascii=False]. *)
Definition escape_char (a : char) : str :=
  if N.eqb a 34 then [backslash; quote]
  else if N.eqb a 92 then [backslash; backslash]
  else if N.eqb a 8 then [backslash; ch "b"]
  else if N.eqb a 12 then [backslash; ch "f"]
  else if N.eqb a 10 then [backslash; ch "n"]
  else if N.eqb a 13 then [backslash; ch "r"]
  else if N.eqb a 9 then [backslash; ch "t"]
  else if N.ltb a 32 then
    backslash :: u "u00" ++ [hex (a / 16); hex (a mod 16)]
  else [a].

Fixpoint escape (s : str) : str :=
  match s with
  | [] => []
  | a :: s' => escape_char a ++ escape s'
  end.

(** [json.dumps(s, ensure_ascii=False, separators=(',', ':'))] on a [str]. *)
Definition json_dumps (s : str) : str := quote :: escape s ++ [quote].

Definition format_message (message : MessageText) : str :=
  match message with
  | Rich r => to_json_str r
  | Plain s => json_dumps s
  end.

Definition get_send_message_command (target : str) (message : MessageText)
  (server_information : ServerInformation) : str :=
  u "tellraw " ++ target ++ u " " ++ format_message message.

Definition get_broadcast_message_command (message : MessageText)
  (server_information : ServerInformation) : str :=
  get_send_message_command (u "@a") message server_information.

End Collaborators.

Arguments Plain {RTextBase} s.
Arguments Rich {RTextBase} r.
Arguments format_message {RTextBase} to_json_str message.
Arguments get_send_message_command {RTextBase} to_json_str {ServerInformation}
  target message server_information.
Arguments get_broadcast_message_command {RTextBase} to_json_str
  {ServerInformation} message server_information.

(** ** Vocabulary of the statements *)

(** A character of a player name: a letter, a digit or the underscore. *)
Definition name_char (a : char) : bool :=
  between 65 90 a || between 97 122 a || between 48 57 a || N.eqb a 95.

Definition not_char (b : char) (a : char) : bool := negb (N.eqb a b).

Definition line_feed : char := 10%N.

(** A logging level: some text between the brackets, without a [']']. *)
Definition level_text (l : str) : Prop :=
  l <> [] /\ all_chars (not_char (ch "]")) l = true.

(** Text on one line. *)
Definition one_line (s : str) : Prop :=
  all_chars (not_char line_feed) s = true.

(** A number: one or more decimal digits, as [\d+] takes them, the
    digits of every script among them. *)
Definition number_text (n : str) : Prop :=
  n <> [] /\ all_chars is_digit n = true.

(** [s] opens with a numeric tag: ["(N) "] for a number [N]. *)
Definition tagged (s : str) : Prop :=
  exists n rest, number_text n /\ s = u "(" ++ n ++ u ") " ++ rest.

(** The line [[LEVEL] MESSAGE], or [[LEVEL] (N) MESSAGE] with a tag. *)
Definition log_line (level : str) (tag : option str) (message : str) : str :=
  u "[" ++ level ++ u "]" ++
  match tag with
  | Some n => u " (" ++ n ++ u ")"
  | None => []
  end ++ u " " ++ message.

Definition tag_ok (tag : option str) (message : str) : Prop :=
  match tag with
  | Some n => number_text n
  | None => ~ tagged message
  end.

(** The numeric tag at the head of a text, with what follows it. *)
Definition tag_split (s : str) : option (str * str) :=
  match s with
  | a :: s1 =>
      if N.eqb a (ch "(") then
        let n := run (AnyOf [Digit]) s1 in
        if Nat.leb 1 n then
          match strip (u ") ") (drop n s1) with
          | Some rest => Some (take n s1, rest)
          | None => None
          end
        else None
      else None
  | [] => None
  end.

(** A JSON string literal read back (RFC 8259, section 7), each escape
    [\uXXXX] giving the code point XXXX: [None] when the text is not one
    literal. *)
Definition hex_value (a : char) : option N :=
  if between 48 57 a then Some (a - 48)%N
  else if between 97 102 a then Some (a - 87)%N
  else if between 65 70 a then Some (a - 55)%N
  else None.

Fixpoint read_chars (s : str) : option str :=
  match s with
  | [] => None
  | a :: s1 =>
      if N.eqb a quote then
        match s1 with
        | [] => Some []
        | _ :: _ => None
        end
      else if N.eqb a backslash then
        match s1 with
        | [] => None
        | b :: s2 =>
            let simple (c : char) := option_map (cons c) (read_chars s2) in
            if N.eqb b quote then simple quote
            else if N.eqb b backslash then simple backslash
            else if N.eqb b (ch "/") then simple (ch "/")
            else if N.eqb b (ch "b") then simple 8%N
            else if N.eqb b (ch "f") then simple 12%N
            else if N.eqb b (ch "n") then simple 10%N
            else if N.eqb b (ch "r") then simple 13%N
            else if N.eqb b (ch "t") then simple 9%N
            else if N.eqb b (ch "u") then
              match s2 with
              | h1 :: h2 :: h3 :: h4 :: s3 =>
                  match hex_value h1, hex_value h2, hex_value h3, hex_value h4 with
                  | Some w, Some x, Some y, Some z =>
                      option_map (cons (4096 * w + 256 * x + 16 * y + z)%N)
                                 (read_chars s3)
                  | _, _, _, _ => None
                  end
              | _ => None
              end
            else None
        end
      else if N.ltb a 32 then None
      else option_map (cons a) (read_chars s1)
  end.

Definition json_string_value (s : str) : option str :=
  match s with
  | a :: s' => if N.eqb a quote then read_chars s' else None
  | [] => None
  end.

(** A character that a JSON string literal holds as it is. *)
Definition plain_char (a : char) : bool :=
  N.leb 32 a && negb (N.eqb a quote) && negb (N.eqb a backslash).

(** The record that the content parser leaves when it succeeds at time
    [t]: level and message filled in, the time of the call, the other
    fields as they were. *)
Definition parsed_record (t : struct_time) (i : Info) (level message : str)
  : Info :=
  mkInfo (source i) (raw_content i) (Some message) (player i)
         (Some (tm_hour t)) (Some (tm_min t)) (Some (tm_sec t)) (Some level).

Definition chat_line (name message : str) : str :=
  u "<chat> " ++ name ++ u ": " ++ message.

Definition version_line (ver build version protocol : str) : str :=
  u "Starting Pumpkin " ++ ver ++ u " (" ++ build ++ u ") for Minecraft "
  ++ version ++ u " (Protocol " ++ protocol ++ u ")".

Definition address_line : str :=
  u "You now can connect to the server; listening on 0.0.0.0:25565".

(** A computation that only reads the record. *)
Definition read_only {A} (c : M A) : Prop := forall i, after c i = i.

(** Records and times of the examples. *)
Definition noon : struct_time := mkTime 12 0 0.

Definition server_record (c : str) : Info :=
  mkInfo SERVER c (Some c) None (Some 12%Z) (Some 0%Z) (Some 0%Z)
         (Some (u "INFO")).

Definition as_it_is (s : str) : str := s.

(** The record of the line on which Alice says the address sentence. *)
Definition chatted_address : Info :=
  mkInfo SERVER (u "[INFO] <chat> Alice: " ++ address_line) (Some address_line)
         (Some (u "Alice")) (Some 12%Z) (Some 0%Z) (Some 0%Z) (Some (u "INFO")).

Definition version_769 : str :=
  u "Starting Pumpkin 0.1.0 (abcdef12) for Minecraft 1.21.4 (Protocol 769)".

Definition version_ddd : str :=
  u "Starting Pumpkin 0.1.0 (abcdef12) for Minecraft 1.21.4 (Protocol ddd)".

Definition seventeen : str := u "abcdefghijklmnopq".

(** ** Vocabulary of the further properties *)

(** Text without white space, as [\S+] wants it. *)
Definition not_space (a : char) : bool := negb (is_space a).

(** A character of the host of the RCON line: [[\w.]]. *)
Definition rcon_host_char (a : char) : bool := is_word a || N.eqb a (ch ".").


Definition address_prefix : str :=
  u "You now can connect to the server; listening on ".

Definition rcon_prefix : str := u "RCON running on ".

(** The number that a text of decimal digits denotes, by the place of
    each digit. *)
Fixpoint decimal (s : str) : Z :=
  match s with
  | [] => 0%Z
  | a :: s' =>
      (Z.of_N (digit_value a) * 10 ^ Z.of_nat (length s') + decimal s')%Z
  end.

(** The character that follows the first blank of a text. *)
Fixpoint after_first_blank (s : str) : option char :=
  match s with
  | [] => None
  | a :: s' =>
      if N.eqb a (ch " ") then
        match s' with
        | b :: _ => Some b
        | [] => None
        end
      else after_first_blank s'
  end.

(** A query that returns a value, and a test that returns true. *)
Definition gives {A} (c : M (option A)) (i : Info) : Prop :=
  exists a, result c i = Ret (Some a).

Definition holds (c : M bool) (i : Info) : Prop := result c i = Ret true.

(** The events that the queries announce on a record; the end of the
    startup is left out, as it is read off the address line. *)
Definition events (i : Info) : list Prop :=
  [ gives parse_player_joined i; gives parse_player_left i;
    gives parse_server_version i; gives parse_server_address i;
    holds test_rcon_started i; holds test_server_stopping i ].

(** A call that raises. *)
Definition raises {A} (c : M A) (i : Info) : Prop :=
  exists e, result c i = Raise e.

(** An event is keyed by [k] when it needs a content whose second word
    starts with [k]. *)
Definition keyed (i : Info) (P : Prop) (k : char) : Prop :=
  P -> exists c, content i = Some c /\ after_first_blank c = Some k.

(** A character of the build identifier: [[a-z0-9_]]. *)
Definition build_char (a : char) : bool :=
  between 97 122 a || between 48 57 a || N.eqb a 95.

Definition letter_d (a : char) : bool := N.eqb a (ch "d").

(** The fields of a version line that the pattern accepts. *)
Definition version_fields (ver build version protocol : str) : Prop :=
  (ver <> [] /\ all_chars (not_char (ch " ")) ver = true) /\
  (length build = 8 /\ all_chars build_char build = true) /\
  (version <> [] /\ one_line version) /\
  (protocol <> [] /\ all_chars letter_d protocol = true).

(** A content of no more characters than [int] converts digits: every
    port in it is converted. *)
Definition short_content (i : Info) : Prop :=
  forall c, content i = Some c -> length c <= int_max_str_digits.
(** ** Strings: facts *)

Lemma append_assoc (a b c : str) : (a ++ b) ++ c = a ++ (b ++ c).
Proof. induction a as [|x a IH]; simpl; [reflexivity | now rewrite IH]. Qed.

Lemma append_nil_r (a : str) : a ++ [] = a.
Proof. induction a as [|x a IH]; simpl; [reflexivity | now rewrite IH]. Qed.

Lemma length_append (a b : str) :
  length (a ++ b) = length a + length b.
Proof. induction a as [|x a IH]; simpl; [reflexivity | now rewrite IH]. Qed.

Lemma take_drop (n : nat) (s : str) : take n s ++ drop n s = s.
Proof.
  revert s; induction n as [|n IH]; intros [|a s]; simpl; try reflexivity.
  now rewrite IH.
Qed.

Lemma length_take (n : nat) (s : str) :
  n <= length s -> length (take n s) = n.
Proof.
  revert s; induction n as [|n IH]; intros [|a s]; simpl; intros H;
    try reflexivity; try lia.
  rewrite IH; lia.
Qed.

Lemma take_app_length (w s : str) : take (length w) (w ++ s) = w.
Proof. induction w as [|a w IH]; simpl; [now destruct s | now rewrite IH]. Qed.

Lemma drop_app_length (w s : str) : drop (length w) (w ++ s) = s.
Proof. induction w as [|a w IH]; simpl; [reflexivity | exact IH]. Qed.

Lemma consumed_app (w s : str) : consumed (w ++ s) s = w.
Proof.
  unfold consumed. rewrite length_append.
  replace (length w + length s - length s)
    with (length w) by lia.
  apply take_app_length.
Qed.

Lemma strip_app (p s : str) : strip p (p ++ s) = Some s.
Proof.
  induction p as [|a p IH]; simpl; [reflexivity|].
  now rewrite N.eqb_refl.
Qed.

Lemma strip_some (p s s' : str) : strip p s = Some s' -> s = p ++ s'.
Proof.
  revert s; induction p as [|a p IH]; intros [|b s]; simpl; intros H;
    try congruence.
  destruct (N.eqb_spec a b) as [->|]; [|discriminate].
  now rewrite (IH _ H).
Qed.

Lemma all_chars_app (p : char -> bool) (a b : str) :
  all_chars p (a ++ b) = all_chars p a && all_chars p b.
Proof.
  induction a as [|x a IH]; simpl; [reflexivity|].
  now rewrite IH, andb_assoc.
Qed.

Lemma all_chars_ext (p q : char -> bool) (s : str) :
  (forall a, p a = q a) -> all_chars p s = all_chars q s.
Proof. intros E; induction s as [|a s IH]; simpl; [reflexivity | now rewrite E, IH]. Qed.

(** ** The matcher: facts *)

(** Where a run of [c] has to stop: at the end, or at a character outside. *)
Definition stops (c : cclass) (s : str) : Prop :=
  match s with
  | [] => True
  | (a :: _) => in_class c a = false
  end.

Lemma run_le_length (c : cclass) (s : str) : run c s <= length s.
Proof.
  induction s as [|a s IH]; simpl; [lia|].
  destruct (in_class c a); lia.
Qed.

Lemma run_app_stop (c : cclass) (w s : str) :
  all_chars (in_class c) w = true -> stops c s ->
  run c (w ++ s) = length w.
Proof.
  induction w as [|a w IH]; simpl; intros Hw Hs.
  - destruct s as [|b s]; simpl in *; [reflexivity | now rewrite Hs].
  - apply andb_true_iff in Hw as [Ha Hw]. rewrite Ha. now rewrite IH.
Qed.

Lemma all_chars_take_run (c : cclass) (n : nat) (s : str) :
  n <= run c s -> all_chars (in_class c) (take n s) = true.
Proof.
  revert s; induction n as [|n IH]; intros [|a s]; simpl; intros H;
    try reflexivity.
  destruct (in_class c a) eqn:E; [|lia].
  simpl. apply IH. lia.
Qed.

Lemma reach_le_run (c : cclass) (hi : option nat) (s : str) :
  reach c hi s <= run c s.
Proof. destruct hi; simpl; lia. Qed.

Lemma reach_fits (c : cclass) (hi : option nat) (s : str) (n : nat) :
  n <= reach c hi s -> fits hi n.
Proof. destruct hi; simpl; [lia | trivial]. Qed.

Lemma reach_app_stop (c : cclass) (hi : option nat) (w s : str) :
  all_chars (in_class c) w = true -> stops c s -> fits hi (length w) ->
  reach c hi (w ++ s) = length w.
Proof.
  intros Hw Hs Hf. unfold reach. rewrite (run_app_stop _ _ _ Hw Hs).
  destruct hi; simpl in *; lia.
Qed.

Lemma back_off_hit (k : str -> option captures) (s : str) (lo n : nat)
  (x : captures) :
  lo <= n -> k (drop n s) = Some x -> back_off k s lo n = Some x.
Proof.
  intros Hlo Hk. destruct n as [|n]; cbn [back_off].
  - destruct (Nat.ltb_spec 0 lo); [lia|]. now rewrite Hk.
  - destruct (Nat.ltb_spec (S n) lo); [lia|]. now rewrite Hk.
Qed.

Lemma back_off_none (k : str -> option captures) (s : str) (lo n : nat) :
  (forall j, lo <= j <= n -> k (drop j s) = None) -> back_off k s lo n = None.
Proof.
  induction n as [|n IH]; intros H; cbn [back_off].
  - destruct (Nat.ltb_spec 0 lo); [reflexivity|]. rewrite H by lia. reflexivity.
  - destruct (Nat.ltb_spec (S n) lo); [reflexivity|]. rewrite H by lia.
    apply IH. intros j Hj. apply H. lia.
Qed.

Lemma back_off_some (k : str -> option captures) (s : str) (lo n : nat)
  (x : captures) :
  back_off k s lo n = Some x ->
  exists j, lo <= j <= n /\ k (drop j s) = Some x.
Proof.
  induction n as [|n IH]; cbn [back_off].
  - destruct (Nat.ltb_spec 0 lo); [discriminate|].
    destruct (k (drop 0 s)) eqn:E; [|discriminate].
    intros [= <-]. exists 0. split; [lia | exact E].
  - destruct (Nat.ltb_spec (S n) lo); [discriminate|].
    destruct (k (drop (S n) s)) eqn:E.
    + intros [= <-]. exists (S n). split; [lia | exact E].
    + intros Hb. destruct (IH Hb) as (j & Hj & Hk).
      exists j. split; [lia | exact Hk].
Qed.

Lemma exec_lit (p s : str) (m : captures) (k : cont) :
  exec (Lit p) (p ++ s) m k = k s m.
Proof. simpl. now rewrite strip_app. Qed.

(** A greedy repetition that meets its stop takes the whole run at the
    first try when the rest of the pattern then succeeds. *)
Lemma exec_rep_hit (c : cclass) (lo : nat) (hi : option nat) (w s : str)
  (m x : captures) (k : cont) :
  all_chars (in_class c) w = true -> stops c s ->
  lo <= length w -> fits hi (length w) ->
  k s m = Some x ->
  exec (Rep c lo hi) (w ++ s) m k = Some x.
Proof.
  intros Hw Hs Hlo Hhi Hk. simpl.
  rewrite (reach_app_stop _ _ _ _ Hw Hs Hhi).
  apply back_off_hit; [exact Hlo|].
  now rewrite drop_app_length.
Qed.

(** Whatever the matcher returns was reached through a match of the
    pattern in the declarative sense. *)
Lemma exec_sound (r : regex) :
  forall (s : str) (m x : captures) (k : cont),
    exec r s m k = Some x ->
    exists w s' m', s = w ++ s' /\ matches r w m m' /\ k s' m' = Some x.
Proof.
  induction r as [p | c lo hi | r1 IH1 r2 IH2 | r IH | [n|] r IH];
    intros s m x k H; simpl in H.
  - destruct (strip p s) as [s'|] eqn:E; [|discriminate].
    exists p, s', m. repeat split; [now apply strip_some | constructor | exact H].
  - apply back_off_some in H as (j & Hj & Hk).
    pose proof (reach_le_run c hi s). pose proof (run_le_length c s).
    exists (take j s), (drop j s), m. repeat split.
    + now rewrite take_drop.
    + constructor.
      * apply all_chars_take_run. lia.
      * rewrite length_take; lia.
      * rewrite length_take by lia. apply (reach_fits c hi s). lia.
    + exact Hk.
  - apply IH1 in H as (w1 & s1 & m1 & -> & M1 & H).
    apply IH2 in H as (w2 & s2 & m2 & -> & M2 & H).
    exists (w1 ++ w2), s2, m2. repeat split.
    + now rewrite append_assoc.
    + econstructor; eassumption.
    + exact H.
  - destruct (exec r s m k) as [y|] eqn:E.
    + injection H as ->. apply IH in E as (w & s' & m' & -> & Mr & Hk).
      exists w, s', m'. split; [reflexivity|]. split; [now constructor | exact Hk].
    + exists [], s, m. split; [reflexivity|].
      split; [apply M_Opt_none | exact H].
  - apply IH in H as (w & s' & m' & -> & Mr & Hk).
    rewrite consumed_app in Hk.
    exists w, s', ((n, w) :: m'). repeat split; [now constructor | exact Hk].
  - apply IH in H as (w & s' & m' & -> & Mr & Hk).
    exists w, s', m'. repeat split; [now constructor | exact Hk].
Qed.

Lemma fullmatch_sound (r : regex) (s : str) (x : captures) :
  fullmatch r s = Some x -> matches r s [] x.
Proof.
  intros H. apply exec_sound in H as (w & s' & m' & -> & Mr & Hk).
  destruct s' as [|a s']; simpl in Hk; [|discriminate].
  injection Hk as ->. now rewrite append_nil_r.
Qed.

Lemma exec_cat r1 r2 s m k :
  exec (Cat r1 r2) s m k = exec r1 s m (fun s' m' => exec r2 s' m' k).
Proof. reflexivity. Qed.

Lemma exec_named n r s m k :
  exec (Group (Some n) r) s m k =
  exec r s m (fun s' m' => k s' ((n, consumed s s') :: m')).
Proof. reflexivity. Qed.

Lemma exec_anon r s m k : exec (Group None r) s m k = exec r s m k.
Proof. reflexivity. Qed.

Lemma exec_opt r s m k :
  exec (Opt r) s m k =
  match exec r s m k with Some x => Some x | None => k s m end.
Proof. reflexivity. Qed.

(** Inversion of the declarative reading, one pattern former at a time. *)
Lemma matches_lit_inv p w m m' : matches (Lit p) w m m' -> w = p /\ m' = m.
Proof. inversion 1; subst; auto. Qed.

Lemma matches_rep_inv c lo hi w m m' :
  matches (Rep c lo hi) w m m' ->
  all_chars (in_class c) w = true /\ lo <= length w /\
  fits hi (length w) /\ m' = m.
Proof. inversion 1; subst; auto. Qed.

Lemma matches_cat_inv r1 r2 w m m' :
  matches (Cat r1 r2) w m m' ->
  exists w1 w2 m1, w = w1 ++ w2 /\ matches r1 w1 m m1 /\ matches r2 w2 m1 m'.
Proof. inversion 1; subst; eauto 7. Qed.

Lemma matches_opt_inv r w m m' :
  matches (Opt r) w m m' -> matches r w m m' \/ (w = [] /\ m' = m).
Proof. inversion 1; subst; auto. Qed.

Lemma matches_anon_inv r w m m' :
  matches (Group None r) w m m' -> matches r w m m'.
Proof. inversion 1; subst; auto. Qed.

Lemma matches_named_inv n r w m m' :
  matches (Group (Some n) r) w m m' ->
  exists m1, matches r w m m1 /\ m' = (n, w) :: m1.
Proof. inversion 1; subst; eauto. Qed.

Ltac invert_matches :=
  repeat match goal with
  | H : matches (Cat _ _) _ _ _ |- _ =>
      apply matches_cat_inv in H;
      let w1 := fresh "w" in let w2 := fresh "w" in let m1 := fresh "m" in
      destruct H as (w1 & w2 & m1 & ? & ? & ?)
  | H : matches (Lit _) _ _ _ |- _ =>
      apply matches_lit_inv in H; destruct H as [? ?]
  | H : matches (Rep _ _ _) _ _ _ |- _ =>
      apply matches_rep_inv in H; destruct H as (? & ? & ? & ?)
  | H : matches (Group None _) _ _ _ |- _ => apply matches_anon_inv in H
  | H : matches (Group (Some _) _) _ _ _ |- _ =>
      apply matches_named_inv in H;
      let m1 := fresh "m" in destruct H as (m1 & ? & ?)
  | H : matches (Opt _) _ _ _ |- _ =>
      apply matches_opt_inv in H; destruct H as [H | [? ?]]
  end.

(** A class that leaves out [k] holds only characters other than [k]. *)
Lemma class_without (p : char -> bool) (k a : char) :
  p k = false -> p a = true -> not_char k a = true.
Proof.
  intros Hk Ha. unfold not_char.
  destruct (N.eqb_spec a k) as [->|]; [congruence | reflexivity].
Qed.

(** The characters below a bound, one by one. *)
Lemma below_cases (n : nat) (a : N) :
  (a < N.of_nat n)%N -> In a (map N.of_nat (seq 0 n)).
Proof.
  intros H. apply in_map_iff. exists (N.to_nat a). split; [apply N2Nat.id|].
  apply in_seq. lia.
Qed.

(** ** The classes of the patterns *)

Lemma name_class_char a :
  in_class (AnyOf [Rng (ch "a") (ch "z"); Rng (ch "A") (ch "Z");
                   Rng (ch "0") (ch "9"); Ch (ch "_")]) a = name_char a.
Proof.
  change (in_class _ a)
    with (between 97 122 a || (between 65 90 a || (between 48 57 a ||
          (N.eqb a 95 || false)))).
  unfold name_char.
  destruct (between 97 122 a), (between 65 90 a), (between 48 57 a),
    (N.eqb a 95); reflexivity.
Qed.

Lemma not_char_class b a : in_class (NoneOf [Ch b]) a = not_char b a.
Proof. unfold not_char. simpl. now rewrite orb_false_r. Qed.

Lemma digit_class a : in_class (AnyOf [Digit]) a = is_digit a.
Proof. simpl. now rewrite orb_false_r. Qed.

Lemma dot_class a : in_class Dot a = not_char line_feed a.
Proof. reflexivity. Qed.

Lemma name_char_not_colon a : name_char a = true -> not_char (ch ":") a = true.
Proof. exact (class_without name_char (ch ":") a eq_refl). Qed.

Lemma letter_d_not_digit (a : char) :
  in_class (AnyOf [Ch (ch "d")]) a = true -> is_digit a = false.
Proof.
  simpl. rewrite orb_false_r. intros H. apply N.eqb_eq in H. subst a.
  vm_compute. reflexivity.
Qed.

Lemma length_pos (s : str) : s <> [] -> 1 <= length s.
Proof. destruct s; simpl; [congruence | lia]. Qed.

Lemma consumed_all (s : str) : consumed s [] = s.
Proof. rewrite <- (append_nil_r s) at 1. apply consumed_app. Qed.

Lemma all_chars_impl (p q : char -> bool) (s : str) :
  (forall a, p a = true -> q a = true) ->
  all_chars p s = true -> all_chars q s = true.
Proof.
  intros I. induction s as [|a s IH]; simpl; [reflexivity|].
  intros H. apply andb_true_iff in H as [Ha Hs].
  now rewrite (I _ Ha), IH.
Qed.

Lemma one_line_app_r (a b : str) : one_line (a ++ b) -> one_line b.
Proof.
  unfold one_line. rewrite all_chars_app. intros H.
  now apply andb_true_iff in H.
Qed.

(** A text is cut in one way only at the first occurrence of a character. *)
Lemma cut_unique (b : char) (w1 w2 s1 s2 : str) :
  all_chars (not_char b) w1 = true -> all_chars (not_char b) w2 = true ->
  w1 ++ (b :: s1) = w2 ++ (b :: s2) -> w1 = w2 /\ s1 = s2.
Proof.
  revert w2; induction w1 as [|a w1 IH]; intros [|a2 w2]; simpl; intros H1 H2 E.
  - now injection E.
  - injection E as <- _. unfold not_char in H2. now rewrite N.eqb_refl in H2.
  - injection E as -> _. unfold not_char in H1. now rewrite N.eqb_refl in H1.
  - injection E as -> E.
    apply andb_true_iff in H1 as [_ H1]. apply andb_true_iff in H2 as [_ H2].
    destruct (IH _ H1 H2 E) as [-> ->]. auto.
Qed.

Lemma append_inv_tail (a b t : str) : a ++ t = b ++ t -> a = b.
Proof.
  intros E.
  assert (L : length a = length b).
  { apply (f_equal (@length _)) in E. rewrite !length_append in E. lia. }
  rewrite <- (take_app_length a t), <- (take_app_length b t), E, L.
  reflexivity.
Qed.

Lemma append_last_inj (x y : str) (a b : char) :
  x ++ [a] = y ++ [b] -> x = y /\ a = b.
Proof.
  revert y; induction x as [|c x IH]; intros [|d y]; simpl; intros E.
  - now injection E.
  - injection E as _ E. destruct y; discriminate.
  - injection E as _ E. destruct x; discriminate.
  - injection E as -> E. destruct (IH _ E) as [-> ->]. auto.
Qed.

Lemma last_char (p : char -> bool) (s : str) :
  s <> [] -> all_chars p s = true ->
  exists s' a, s = s' ++ [a] /\ p a = true.
Proof.
  induction s as [|c s IH]; [congruence|]. intros _ H. simpl in H.
  apply andb_true_iff in H as [Hc Hs].
  destruct s as [|d s].
  - exists [], c. auto.
  - destruct IH as (s' & a & E & Ha); [discriminate | exact Hs |].
    exists (c :: s'), a. simpl. now rewrite <- E.
Qed.

(** ** The name validator *)

Lemma verify_player_name_iff s :
  _verify_player_name s = true <->
  3 <= length s <= 16 /\ all_chars name_char s = true.
Proof.
  unfold _verify_player_name. split.
  - destruct (fullmatch player_name_regex s) as [x|] eqn:E; [|discriminate].
    intros _. apply fullmatch_sound in E. unfold player_name_regex in E.
    invert_matches. simpl in *.
    rewrite (all_chars_ext _ _ s name_class_char) in *. auto.
  - intros [[Hlo Hhi] Hc].
    unfold fullmatch, player_name_regex.
    rewrite <- (append_nil_r s) at 1.
    erewrite exec_rep_hit; try reflexivity; simpl; auto.
    now rewrite (all_chars_ext _ _ s name_class_char).
Qed.

(** ** The content pattern *)

Lemma content_tail_match (M : str) (m : captures) :
  one_line M ->
  exec (Lit (u " ") >> named "content" (star Dot))%re (u " " ++ M) m at_end
  = Some (("content"%string, M) :: m).
Proof.
  intros HM. rewrite exec_cat, exec_lit. unfold named, star.
  rewrite exec_named. rewrite <- (append_nil_r M) at 1.
  apply exec_rep_hit.
  - now rewrite (all_chars_ext _ _ M dot_class).
  - exact I.
  - apply Nat.le_0_l.
  - exact I.
  - cbv beta. now rewrite consumed_all.
Qed.

Lemma content_formatter_match (L : str) (tag : option str) (M : str) :
  level_text L -> one_line M -> tag_ok tag M ->
  fullmatch get_content_parsing_formatter (log_line L tag M)
  = Some [("content"%string, M); ("logging"%string, L)].
Proof.
  intros [HL1 HL2] HM Htag.
  unfold fullmatch, get_content_parsing_formatter, log_line.
  rewrite exec_cat, exec_lit, exec_cat. unfold named at 1, plus at 1.
  rewrite exec_named.
  apply exec_rep_hit.
  - now rewrite (all_chars_ext _ _ L (not_char_class (ch "]"))).
  - reflexivity.
  - now apply length_pos.
  - exact I.
  - cbv beta. rewrite consumed_app, exec_cat, exec_lit, exec_cat, exec_opt.
    destruct tag as [N|]; simpl in Htag.
    + (* the tag is there: the optional part takes it at once *)
      destruct Htag as [HN1 HN2].
      rewrite !append_assoc.
      rewrite exec_cat, exec_lit, exec_cat. unfold unnamed, plus at 1.
      rewrite exec_anon.
      erewrite exec_rep_hit; [reflexivity | | reflexivity | | exact I | ].
      * now rewrite (all_chars_ext _ _ N digit_class).
      * now apply length_pos.
      * cbv beta. rewrite exec_lit. now apply content_tail_match.
    + (* no tag: the optional part cannot succeed, or the message would
         open with one *)
      destruct (exec _ _ _ _) as [x|] eqn:E.
      * exfalso. apply Htag.
        apply exec_sound in E as (w & s' & m' & Hs & Mw & Hk).
        apply exec_sound in Hk as (w' & s'' & m'' & -> & Mw' & _).
        unfold unnamed, plus, named, star in *.
        invert_matches. subst. simpl in Hs.
        injection Hs as Hs.
        match goal with
        | H : all_chars (in_class (AnyOf [Digit])) ?n = true |- _ =>
            exists n; eexists; split; [split|]
        end.
        -- intros ->. simpl in *. lia.
        -- now rewrite <- (all_chars_ext _ _ _ digit_class).
        -- rewrite Hs. rewrite !append_assoc. reflexivity.
      * now apply content_tail_match.
Qed.

(** What the content pattern binds when it matches. *)
Lemma content_formatter_inv c x :
  fullmatch get_content_parsing_formatter c = Some x ->
  exists L M, x = [("content"%string, M); ("logging"%string, L)] /\ one_line M /\
              level_text L /\ exists tag, c = log_line L tag M.
Proof.
  intros H. apply fullmatch_sound in H.
  unfold get_content_parsing_formatter, named, unnamed, plus, star in H.
  invert_matches; subst.
  - match goal with
    | H1 : all_chars (in_class (NoneOf _)) ?l = true,
      H2 : all_chars (in_class Dot) ?m = true,
      H3 : all_chars (in_class (AnyOf [Digit])) ?n = true |- _ =>
        exists l, m; split; [reflexivity|]; split; [|split]; [ | | exists (Some n)]
    end.
    + unfold one_line. now rewrite <- (all_chars_ext _ _ _ dot_class).
    + split; [intros ->; simpl in *; lia|].
      now rewrite <- (all_chars_ext _ _ _ (not_char_class (ch "]"))).
    + unfold log_line. rewrite ?append_assoc. reflexivity.
  - match goal with
    | H1 : all_chars (in_class (NoneOf _)) ?l = true,
      H2 : all_chars (in_class Dot) ?m = true |- _ =>
        exists l, m; split; [reflexivity|]; split; [|split]; [ | | exists None]
    end.
    + unfold one_line. now rewrite <- (all_chars_ext _ _ _ dot_class).
    + split; [intros ->; simpl in *; lia|].
      now rewrite <- (all_chars_ext _ _ _ (not_char_class (ch "]"))).
    + unfold log_line. rewrite ?append_assoc. reflexivity.
Qed.

Lemma digit_not_paren a : is_digit a = true -> not_char (ch ")") a = true.
Proof. apply (class_without is_digit (ch ")") a). vm_compute. reflexivity. Qed.

Lemma tag_split_some (s n rest : str) :
  tag_split s = Some (n, rest) ->
  number_text n /\ s = u "(" ++ n ++ u ") " ++ rest.
Proof.
  destruct s as [|a s1]; unfold tag_split; [discriminate|].
  destruct (N.eqb_spec a (ch "(")) as [->|]; [|discriminate].
  destruct (Nat.leb_spec 1 (run (AnyOf [Digit]) s1)) as [H1|]; [|discriminate].
  destruct (strip (u ") ") (drop (run (AnyOf [Digit]) s1) s1)) as [r|] eqn:E;
    [|discriminate].
  intros [= <- <-]. apply strip_some in E.
  pose proof (run_le_length (AnyOf [Digit]) s1) as Hlen.
  split; [split|].
  - intros Hn. apply (f_equal (@length _)) in Hn.
    rewrite length_take in Hn by lia. simpl in Hn. lia.
  - rewrite <- (all_chars_ext _ _ _ digit_class).
    now apply all_chars_take_run.
  - simpl. f_equal. rewrite <- (take_drop (run (AnyOf [Digit]) s1) s1) at 1.
    now rewrite E.
Qed.

Lemma tag_split_none (s : str) : tag_split s = None -> ~ tagged s.
Proof.
  intros H (n & rest & [Hne Hd] & ->).
  change (u "(" ++ n ++ u ") " ++ rest) with (ch "(" :: (n ++ u ") " ++ rest)) in H.
  unfold tag_split in H. rewrite N.eqb_refl in H.
  rewrite (run_app_stop (AnyOf [Digit]) n (u ") " ++ rest)) in H.
  - destruct (Nat.leb_spec 1 (length n)) as [_|Hl].
    + rewrite drop_app_length, strip_app in H. discriminate.
    + apply length_pos in Hne. lia.
  - now rewrite (all_chars_ext _ _ _ digit_class).
  - reflexivity.
Qed.

Lemma content_parse_of_match t i c L M :
  content i = Some c ->
  fullmatch get_content_parsing_formatter c = Some [("content"%string, M); ("logging"%string, L)] ->
  _content_parse t i = (Ret tt, parsed_record t i L M).
Proof.
  intros Hc Hm. unfold _content_parse, bind, attr, get_content_parsers.
  rewrite Hc. simpl. unfold bind, ret. rewrite Hm. reflexivity.
Qed.

Lemma content_parse_unmatched t i c :
  content i = Some c ->
  fullmatch get_content_parsing_formatter c = None ->
  _content_parse t i = (Raise (ValueError (u "Unrecognized input: " ++ c)), i).
Proof.
  intros Hc Hm. unfold _content_parse, bind, attr, get_content_parsers.
  rewrite Hc. simpl. unfold bind, ret. rewrite Hm. reflexivity.
Qed.

(** ** The chat pattern *)

Lemma chat_match (N M : str) :
  N <> [] -> all_chars (not_char (ch ":")) N = true -> one_line M ->
  fullmatch player_message_regex (chat_line N M)
  = Some [("message"%string, M); ("name"%string, N)].
Proof.
  intros HN1 HN2 HM. unfold fullmatch, chat_line, player_message_regex.
  rewrite exec_cat, exec_lit, exec_cat. unfold named at 1, plus.
  rewrite exec_named. apply exec_rep_hit.
  - now rewrite (all_chars_ext _ _ N (not_char_class (ch ":"))).
  - reflexivity.
  - now apply length_pos.
  - exact I.
  - cbv beta. rewrite consumed_app, exec_cat, exec_lit.
    unfold named, star. rewrite exec_named.
    rewrite <- (append_nil_r M) at 1. apply exec_rep_hit.
    + now rewrite (all_chars_ext _ _ M dot_class).
    + exact I.
    + apply Nat.le_0_l.
    + exact I.
    + cbv beta. now rewrite consumed_all.
Qed.

Lemma chat_inv (c : str) (x : captures) :
  fullmatch player_message_regex c = Some x ->
  exists N M, x = [("message"%string, M); ("name"%string, N)] /\ c = chat_line N M /\
              N <> [] /\ all_chars (not_char (ch ":")) N = true.
Proof.
  intros H. apply fullmatch_sound in H.
  unfold player_message_regex, named, plus, star in H. invert_matches; subst.
  match goal with
  | H1 : all_chars (in_class (NoneOf _)) ?n = true,
    H2 : all_chars (in_class Dot) ?m = true |- _ =>
      exists n, m; split; [reflexivity|]; split; [|split]
  end.
  - unfold chat_line. rewrite ?append_assoc. reflexivity.
  - intros ->. simpl in *. lia.
  - now rewrite <- (all_chars_ext _ _ _ (not_char_class (ch ":"))).
Qed.

Lemma scan_chat_valid (i : Info) (N M : str) :
  content i = Some (chat_line N M) -> one_line M ->
  _verify_player_name N = true ->
  scan_player_message get_player_message_parsers i
  = (Ret tt, set_content (Some M) (set_player (Some N) i)).
Proof.
  intros Hc HM HN.
  pose proof (proj1 (verify_player_name_iff N) HN) as [[Hlen _] Hch].
  assert (E : fullmatch player_message_regex (chat_line N M)
              = Some [("message"%string, M); ("name"%string, N)]).
  { apply chat_match; [intros ->; simpl in Hlen; lia | | exact HM].
    exact (all_chars_impl _ _ _ name_char_not_colon Hch). }
  unfold scan_player_message, get_player_message_parsers,
    get_player_message_parsing_formatter, bind, attr.
  rewrite Hc. simpl re_fullmatch. unfold ret. rewrite E. simpl.
  rewrite HN. reflexivity.
Qed.

Lemma scan_chat_invalid (i : Info) (N M : str) :
  content i = Some (chat_line N M) ->
  all_chars (not_char (ch ":")) N = true ->
  _verify_player_name N = false ->
  scan_player_message get_player_message_parsers i = (Ret tt, i).
Proof.
  intros Hc HN1 HN2.
  unfold scan_player_message, get_player_message_parsers,
    get_player_message_parsing_formatter, bind, attr.
  rewrite Hc. simpl re_fullmatch. unfold ret.
  destruct (fullmatch _ (chat_line N M)) as [x|] eqn:E; [|reflexivity].
  apply chat_inv in E as (N' & M' & -> & E & _ & HN').
  unfold chat_line in E. simpl in E. injection E as E.
  apply cut_unique in E as [<- _]; try assumption.
  simpl. now rewrite HN2.
Qed.

(** What the inherited parse returns is the raw record with the fields of
    the content parser filled in, on one line, and with no player. *)
Lemma super_parse_returns (clean : str -> str) t text r :
  super_parse_server_stdout clean t text = Ret r ->
  exists L M, r = parsed_record t (_get_server_stdout_raw_result clean text) L M
              /\ one_line M.
Proof.
  unfold super_parse_server_stdout, returning. intros H.
  set (raw := _get_server_stdout_raw_result clean text) in *.
  assert (Hc : content raw = Some (clean text)) by reflexivity.
  destruct (fullmatch get_content_parsing_formatter (clean text)) as [x|] eqn:E.
  - apply content_formatter_inv in E as E'.
    destruct E' as (L & M & -> & HM & _).
    rewrite (content_parse_of_match t raw _ L M Hc E) in H.
    injection H as <-. now exists L, M.
  - rewrite (content_parse_unmatched t raw _ Hc E) in H. discriminate.
Qed.

(** ** The address pattern *)

Lemma digits_value_total (s : str) (acc : Z) :
  all_chars is_digit s = true -> exists z, digits_value s acc = Some z.
Proof.
  revert acc; induction s as [|a s IH]; simpl; intros acc H; [eauto|].
  apply andb_true_iff in H as [Ha Hs]. rewrite Ha. now apply IH.
Qed.

Lemma int_of_number (p : str) (i : Info) :
  number_text p -> length p <= int_max_str_digits ->
  exists z, int p i = (Ret z, i).
Proof.
  intros [Hne Hd] Hl. unfold int. destruct p as [|a p]; [congruence|].
  destruct (digits_value_total _ 0%Z Hd) as [z ->].
  destruct (Nat.ltb_spec int_max_str_digits (length (a :: p))); [lia|].
  now exists z.
Qed.

(** Beyond the limit on digits, [int] raises. *)
Lemma int_of_long_number (p : str) (i : Info) :
  number_text p -> int_max_str_digits < length p ->
  exists msg, int p i = (Raise (ValueError msg), i).
Proof.
  intros [Hne Hd] Hl. unfold int. destruct p as [|a p]; [congruence|].
  destruct (digits_value_total _ 0%Z Hd) as [z ->].
  destruct (Nat.ltb_spec int_max_str_digits (length (a :: p))); [|lia].
  eexists. reflexivity.
Qed.

Lemma int_of_number_cases (p : str) (i : Info) :
  number_text p ->
  (length p <= int_max_str_digits /\ exists z, int p i = (Ret z, i)) \/
  (int_max_str_digits < length p /\
   exists msg, int p i = (Raise (ValueError msg), i)).
Proof.
  intros H. destruct (Nat.le_gt_cases (length p) int_max_str_digits) as [Hl|Hl].
  - left. split; [exact Hl | now apply int_of_number].
  - right. split; [exact Hl | now apply int_of_long_number].
Qed.

Lemma address_inv (c : str) (x : captures) :
  fullmatch server_address_regex c = Some x ->
  exists ip p,
    x = [("port"%string, p); ("ip"%string, ip)] /\ number_text p /\
    c = address_prefix ++ ip ++ u ":" ++ p.
Proof.
  intros H. apply fullmatch_sound in H.
  unfold server_address_regex, named, plus in H. invert_matches; subst.
  match goal with
  | H1 : all_chars (in_class (NoneOf _)) ?a = true,
    H2 : all_chars (in_class (AnyOf [Digit])) ?p = true |- _ =>
      exists a, p; split; [reflexivity | split; [split|]]
  end.
  - intros ->. simpl in *. lia.
  - now rewrite <- (all_chars_ext _ _ _ digit_class).
  - reflexivity.
Qed.

(** With no player on the record, the test holds where the address
    parser gives a pair or [int] refuses the port. *)
Lemma startup_done_iff_address_unset (i : Info) :
  player i = None ->
  (result test_server_startup_done i = Ret true <->
   (exists host port, result parse_server_address i = Ret (Some (host, port))) \/
   (exists msg, result parse_server_address i = Raise (ValueError msg))).
Proof.
  intros Hp.
  unfold result, test_server_startup_done, parse_server_address, bind, attr,
    is_user, is_player, is_from_server, is_from_console.
  rewrite Hp. destruct (source i); simpl.
  - destruct (content i) as [c|]; simpl.
    + destruct (fullmatch server_address_regex c) as [x|] eqn:E; simpl.
      * apply address_inv in E as (ip & p & -> & Hnum & _). simpl.
        destruct (int_of_number_cases p i Hnum) as [[_ [z ->]] | [_ [msg ->]]];
          simpl; split; eauto.
      * split; [discriminate | intros [(h & p & [=]) | (msg & [=])]].
    + split; [discriminate | intros [(h & p & [=]) | (msg & [=])]].
  - split; [discriminate | intros [(h & p & [=]) | (msg & [=])]].
Qed.

(** On a content within the limit on digits, [int] takes every port. *)
Lemma address_never_raises_value (i : Info) :
  short_content i ->
  forall msg, result parse_server_address i <> Raise (ValueError msg).
Proof.
  intros Hs msg.
  unfold result, parse_server_address, bind, attr.
  destruct (negb (is_user i)); simpl; [|discriminate].
  destruct (content i) as [c|] eqn:Hc; simpl; [|discriminate].
  destruct (fullmatch server_address_regex c) as [x|] eqn:E; simpl;
    [|discriminate].
  apply address_inv in E as (ip & p & -> & Hnum & Ec). simpl.
  destruct (int_of_number p i Hnum) as [z ->]; [|discriminate].
  specialize (Hs c Hc). rewrite Ec in Hs.
  rewrite !length_append in Hs. lia.
Qed.

Lemma startup_done_iff_address_short (i : Info) :
  player i = None -> short_content i ->
  (result test_server_startup_done i = Ret true <->
   exists host port, result parse_server_address i = Ret (Some (host, port))).
Proof.
  intros Hp Hs. rewrite (startup_done_iff_address_unset i Hp). split.
  - intros [H | [msg H]]; [exact H|].
    now apply (address_never_raises_value i Hs) in H.
  - auto.
Qed.

(** A record attributed to a player: the parser gives no address, and
    the test goes by the line alone. *)
Lemma address_of_player (i : Info) :
  player i <> None ->
  result parse_server_address i = Ret None /\
  result test_server_startup_done i
  = result test_server_startup_done (set_player None i).
Proof.
  intros Hp. split.
  - unfold result, parse_server_address, bind, attr, is_user, is_player,
      is_from_server, is_from_console.
    destruct (player i); [|congruence].
    destruct (source i); reflexivity.
  - unfold result, test_server_startup_done, bind, attr, is_from_server.
    destruct i as [src raw c pl h m sc lv]; simpl.
    destruct src; simpl; [|reflexivity].
    destruct c as [c|]; simpl; [|reflexivity].
    destruct (fullmatch server_address_regex c); reflexivity.
Qed.

(** The record of Alice's chat is what the handler makes of her line. *)
Lemma chatted_address_is_parsed (clean : str -> str) :
  clean (raw_content chatted_address) = raw_content chatted_address ->
  parse_server_stdout clean noon (raw_content chatted_address)
  = Ret chatted_address.
Proof.
  intros H. unfold parse_server_stdout, super_parse_server_stdout,
    _get_server_stdout_raw_result. rewrite H. vm_compute. reflexivity.
Qed.

(** ** Joining players *)

Lemma joined_inv (c : str) (x : captures) :
  fullmatch player_joined_regex c = Some x ->
  exists n, x = [("name"%string, n)] /\ c = n ++ u " joined the game".
Proof.
  intros H. apply fullmatch_sound in H.
  unfold player_joined_regex, named, plus in H. invert_matches; subst. eauto.
Qed.

Lemma joined_name_valid (i : Info) (n : str) :
  result parse_player_joined i = Ret (Some n) -> _verify_player_name n = true.
Proof.
  unfold result, parse_player_joined, re_fullmatch, getitem, bind, attr, ret,
    raise.
  destruct (negb (is_user i)); simpl; [|discriminate].
  destruct (content i) as [c|]; simpl; [|discriminate].
  destruct (fullmatch player_joined_regex c) as [x|]; simpl; [|discriminate].
  destruct (group x "name") as [v|]; simpl; [|discriminate].
  destruct (_verify_player_name v) eqn:E; simpl; [|discriminate].
  now intros [= <-].
Qed.

Lemma joined_invalid_name (i : Info) (name : str) :
  content i = Some (name ++ u " joined the game") ->
  _verify_player_name name = false ->
  result parse_player_joined i = Ret None.
Proof.
  intros Hc Hv.
  unfold result, parse_player_joined, bind, attr.
  destruct (negb (is_user i)); simpl; [|reflexivity].
  rewrite Hc. simpl.
  destruct (fullmatch player_joined_regex _) as [x|] eqn:E; simpl; [|reflexivity].
  apply joined_inv in E as (n & -> & E).
  apply append_inv_tail in E as <-. simpl. now rewrite Hv.
Qed.

(** ** The version pattern *)

Lemma version_inv (c : str) (x : captures) :
  fullmatch server_version_regex c = Some x ->
  exists ver build version protocol,
    c = version_line ver build version protocol /\
    x = [("version"%string, version)] /\
    protocol <> [] /\
    all_chars (in_class (AnyOf [Ch (ch "d")])) protocol = true.
Proof.
  intros H. apply fullmatch_sound in H.
  unfold server_version_regex, named, unnamed, plus in H. invert_matches; subst.
  match goal with
  | H1 : all_chars (in_class (NoneOf [Ch (ch " ")])) ?v = true,
    H2 : all_chars (in_class (AnyOf [_; _; _])) ?b = true,
    H3 : all_chars (in_class Dot) ?n = true,
    H4 : all_chars (in_class (AnyOf [Ch (ch "d")])) ?p = true |- _ =>
      exists v, b, n, p; split; [|split; [reflexivity|split]]
  end.
  - unfold version_line. rewrite ?append_assoc. reflexivity.
  - intros ->. simpl in *. lia.
  - assumption.
Qed.

(** A protocol number in digits ends the line with a digit, where the
    pattern wants the letter [d]. *)
Lemma version_with_number_unmatched (ver build version protocol : str) :
  number_text protocol ->
  fullmatch server_version_regex (version_line ver build version protocol) = None.
Proof.
  intros [Hne Hd].
  destruct (fullmatch _ _) as [x|] eqn:E; [exfalso | reflexivity].
  apply version_inv in E as (v' & b' & n' & p' & E & _ & Hne' & Hd').
  destruct (last_char _ _ Hne Hd) as (p0 & a & -> & Ha).
  destruct (last_char _ _ Hne' Hd') as (q0 & b & -> & Hb).
  unfold version_line in E.
  repeat rewrite <- append_assoc in E.
  apply append_last_inj in E as [E _].
  apply append_last_inj in E as [_ ->].
  apply letter_d_not_digit in Hb. congruence.
Qed.

(** ** Queries only read *)

Lemma read_only_ret {A} (a : A) : read_only (ret a).
Proof. intros i; reflexivity. Qed.

Lemma read_only_raise {A} (e : exn) : read_only (@raise A e).
Proof. intros i; reflexivity. Qed.

Lemma read_only_attr {A} (f : Info -> A) : read_only (attr f).
Proof. intros i; reflexivity. Qed.

Lemma read_only_bind {A B} (c : M A) (f : A -> M B) :
  read_only c -> (forall a, read_only (f a)) -> read_only (bind c f).
Proof.
  intros Hc Hf i. unfold after, bind. specialize (Hc i). unfold after in Hc.
  destruct (c i) as [[a|e] i']; simpl in Hc; subst i'; [apply Hf | reflexivity].
Qed.

Lemma read_only_re_fullmatch r x : read_only (re_fullmatch r x).
Proof. destruct x; [apply read_only_ret | apply read_only_raise]. Qed.

Lemma read_only_getitem m n : read_only (getitem m n).
Proof.
  unfold getitem. destruct (group m n); [apply read_only_ret | apply read_only_raise].
Qed.

Lemma read_only_int s : read_only (int s).
Proof.
  unfold int. destruct s; [apply read_only_raise|].
  destruct (digits_value _ _); [|apply read_only_raise].
  destruct (Nat.ltb _ _); [apply read_only_raise | apply read_only_ret].
Qed.

Create HintDb frame.
#[local] Hint Resolve read_only_ret read_only_raise read_only_attr
  read_only_re_fullmatch read_only_getitem read_only_int : frame.

Ltac frame :=
  repeat first
    [ progress auto with frame
    | apply read_only_bind; [|intros ?]
    | match goal with
      | |- read_only (if ?b then _ else _) => destruct b
      | |- read_only (match ?x with _ => _ end) => destruct x
      end ].

Lemma read_only_parse_player_joined : read_only parse_player_joined.
Proof. unfold parse_player_joined. frame. Qed.

Lemma read_only_parse_player_left : read_only parse_player_left.
Proof. unfold parse_player_left. frame. Qed.

Lemma read_only_parse_server_version : read_only parse_server_version.
Proof. unfold parse_server_version. frame. Qed.

Lemma read_only_parse_server_address : read_only parse_server_address.
Proof. unfold parse_server_address. frame. Qed.

Lemma read_only_test_server_startup_done : read_only test_server_startup_done.
Proof. unfold test_server_startup_done. frame. Qed.

Lemma read_only_test_rcon_started : read_only test_rcon_started.
Proof. unfold test_rcon_started. frame. Qed.

Lemma read_only_test_server_stopping : read_only test_server_stopping.
Proof. unfold test_server_stopping. frame. Qed.

(** ** JSON string literals *)

Lemma plain_char_inv (a : char) :
  plain_char a = true ->
  (32 <= a)%N /\ N.eqb a quote = false /\ N.eqb a backslash = false.
Proof.
  unfold plain_char. intros H.
  apply andb_true_iff in H as [H Hb]. apply andb_true_iff in H as [Hl Hq].
  apply N.leb_le in Hl. apply negb_true_iff in Hq, Hb. auto.
Qed.

Lemma not_plain_char (a : char) :
  plain_char a = false -> (a < 32)%N \/ a = quote \/ a = backslash.
Proof.
  unfold plain_char. intros H.
  destruct (N.leb_spec 32 a); [|now left].
  destruct (N.eqb_spec a quote); [now right; left|].
  destruct (N.eqb_spec a backslash); [now right; right|].
  discriminate.
Qed.

Lemma escape_plain_char (a : char) :
  plain_char a = true -> escape_char a = [a].
Proof.
  intros H. apply plain_char_inv in H as (Hl & Hq & Hb).
  unfold quote, backslash in *. unfold escape_char. rewrite Hq, Hb.
  repeat match goal with
         | |- context [N.eqb a ?k] => destruct (N.eqb_spec a k); [lia|]
         end.
  destruct (N.ltb_spec a 32); [lia | reflexivity].
Qed.

Lemma read_plain_char (a : char) (rest : str) :
  plain_char a = true ->
  read_chars (a :: rest) = option_map (cons a) (read_chars rest).
Proof.
  intros H. apply plain_char_inv in H as (Hl & Hq & Hb).
  cbn [read_chars]. rewrite Hq, Hb.
  destruct (N.ltb_spec a 32); [lia | reflexivity].
Qed.

Lemma read_escaped_char (a : char) (rest : str) :
  read_chars (escape_char a ++ rest) = option_map (cons a) (read_chars rest).
Proof.
  destruct (plain_char a) eqn:P.
  - rewrite (escape_plain_char a P). now apply read_plain_char.
  - apply not_plain_char in P as [H | [-> | ->]]; try reflexivity.
    apply (below_cases 32) in H. simpl in H.
    repeat (destruct H as [<- | H]; [reflexivity|]). destruct H.
Qed.

Lemma read_escaped (s : str) :
  read_chars (escape s ++ [quote]) = Some s.
Proof.
  induction s as [|a s IH]; [reflexivity|].
  simpl escape. rewrite append_assoc, read_escaped_char, IH. reflexivity.
Qed.

Lemma escape_plain (s : str) :
  all_chars plain_char s = true -> escape s = s.
Proof.
  induction s as [|a s IH]; simpl; [reflexivity|]. intros H.
  apply andb_true_iff in H as [Ha Hs].
  now rewrite (escape_plain_char a Ha), IH.
Qed.

Lemma non_ascii_plain (a : char) : (128 <= a)%N -> plain_char a = true.
Proof.
  intros H. unfold plain_char, quote, backslash.
  destruct (N.leb_spec 32 a); [|lia].
  destruct (N.eqb_spec a 34); [lia|]. destruct (N.eqb_spec a 92); [lia|].
  reflexivity.
Qed.
(** ** The matcher finds a match when there is one *)

Lemma run_app_ge (c : cclass) (w s : str) :
  all_chars (in_class c) w = true -> length w <= run c (w ++ s).
Proof.
  induction w as [|a w IH]; simpl; intros H; [lia|].
  apply andb_true_iff in H as [Ha Hw]. rewrite Ha. specialize (IH Hw). lia.
Qed.

Lemma reach_app_ge (c : cclass) (hi : option nat) (w s : str) :
  all_chars (in_class c) w = true -> fits hi (length w) ->
  length w <= reach c hi (w ++ s).
Proof.
  intros Hw Hf. pose proof (run_app_ge c w s Hw).
  destruct hi; simpl in *; lia.
Qed.

Lemma back_off_finds (k : str -> option captures) (s : str)
  (lo n j : nat) (x : captures) :
  lo <= j <= n -> k (drop j s) = Some x ->
  exists y, back_off k s lo n = Some y.
Proof.
  induction n as [|n IH]; intros Hj Hk; cbn [back_off].
  - assert (j = 0) by lia. subst j.
    destruct (Nat.ltb_spec 0 lo); [lia|]. rewrite Hk. eauto.
  - destruct (Nat.ltb_spec (S n) lo); [lia|].
    destruct (k (drop (S n) s)) as [y|] eqn:E; [eauto|].
    destruct (Nat.eq_dec j (S n)) as [->|]; [congruence|].
    apply IH; [lia | exact Hk].
Qed.

Lemma exec_complete (r : regex) (w : str) (m m' : captures) :
  matches r w m m' ->
  forall (s : str) (k : cont) (x : captures),
    k s m' = Some x -> exists y, exec r (w ++ s) m k = Some y.
Proof.
  induction 1 as [p m | c lo hi w m Hw Hlo Hhi
                 | r1 r2 w1 w2 m0 m1 m2 _ IH1 _ IH2
                 | r w m m' _ IH | r m | r w m m' _ IH | n r w m m' _ IH];
    intros s k x Hk.
  - rewrite exec_lit. eauto.
  - cbn [exec].
    apply (back_off_finds _ _ _ _ (length w) x).
    + split; [exact Hlo | now apply reach_app_ge].
    + now rewrite drop_app_length.
  - rewrite append_assoc. cbn [exec].
    destruct (IH2 s k x Hk) as [y Hy].
    exact (IH1 (w2 ++ s) (fun s' m' => exec r2 s' m' k) y Hy).
  - cbn [exec]. destruct (IH s k x Hk) as [y ->]. eauto.
  - cbn [exec]. simpl app. destruct (exec r s m k); eauto.
  - cbn [exec]. exact (IH s k x Hk).
  - cbn [exec].
    apply (IH s (fun s' m'0 => k s' ((n, consumed (w ++ s) s') :: m'0)) x).
    now rewrite consumed_app.
Qed.

Lemma fullmatch_complete (r : regex) (s : str) (m : captures) :
  matches r s [] m -> exists y, fullmatch r s = Some y.
Proof.
  intros H. unfold fullmatch. rewrite <- (append_nil_r s).
  exact (exec_complete r s [] m H [] at_end m eq_refl).
Qed.

(** A text is cut in one way only at the last occurrence of a character. *)
Lemma cut_unique_last (b : char) (w1 w2 s1 s2 : str) :
  all_chars (not_char b) s1 = true -> all_chars (not_char b) s2 = true ->
  w1 ++ (b :: s1) = w2 ++ (b :: s2) -> w1 = w2 /\ s1 = s2.
Proof.
  intros H1 H2.
  assert (Hb : forall x y, all_chars (not_char b) (x ++ (b :: y)) = false).
  { intros x y. rewrite all_chars_app. simpl. unfold not_char at 2.
    rewrite N.eqb_refl. simpl. apply andb_false_r. }
  revert w2; induction w1 as [|a w1 IH]; intros [|a2 w2]; simpl; intros E.
  - now injection E.
  - injection E as _ E. subst s1. rewrite Hb in H1. discriminate.
  - injection E as _ E. subst s2. rewrite Hb in H2. discriminate.
  - injection E as -> E. destruct (IH _ E) as [-> ->]. auto.
Qed.

Lemma append_inv_head (p a b : str) : p ++ a = p ++ b -> a = b.
Proof. induction p as [|c p IH]; simpl; [auto | intros [= E]; auto]. Qed.

Lemma all_chars_drop (p : char -> bool) (n : nat) (s : str) :
  all_chars p s = true -> all_chars p (drop n s) = true.
Proof.
  revert s; induction n as [|n IH]; intros [|a s]; simpl; auto.
  intros H. apply andb_true_iff in H as [_ H]. now apply IH.
Qed.

(** ** Decimal numbers *)

Lemma digits_value_decimal (s : str) (acc : Z) :
  all_chars is_digit s = true ->
  digits_value s acc
  = Some (acc * 10 ^ Z.of_nat (length s) + decimal s)%Z.
Proof.
  revert acc; induction s as [|a s IH]; intros acc H.
  - simpl. f_equal. lia.
  - simpl in H. apply andb_true_iff in H as [Ha Hs].
    cbn [digits_value decimal length]. rewrite Ha, (IH _ Hs).
    f_equal. rewrite Nat2Z.inj_succ, Z.pow_succ_r by lia. ring.
Qed.

Lemma int_decimal (p : str) (i : Info) :
  number_text p -> length p <= int_max_str_digits ->
  int p i = (Ret (decimal p), i).
Proof.
  intros [Hne Hd] Hl. unfold int. destruct p as [|a p]; [congruence|].
  rewrite (digits_value_decimal _ 0%Z Hd).
  destruct (Nat.ltb_spec int_max_str_digits (length (a :: p))); [lia|].
  unfold ret. do 2 f_equal.
Qed.

Lemma decimal_nonneg (s : str) : (0 <= decimal s)%Z.
Proof.
  induction s as [|a s IH]; simpl; [lia|].
  assert (0 <= 10 ^ Z.of_nat (length s))%Z by (apply Z.pow_nonneg; lia).
  nia.
Qed.

(** ** A name, then a sentence *)

Lemma name_char_not_blank a : name_char a = true -> not_char (ch " ") a = true.
Proof. exact (class_without name_char (ch " ") a eq_refl). Qed.

Lemma name_then_shape (suffix c : str) (x : captures) :
  fullmatch (named "name" (plus (NoneOf [Ch (ch " ")])) >> Lit suffix)%re c = Some x ->
  exists n, x = [("name"%string, n)] /\ c = n ++ suffix /\ n <> [] /\
            all_chars (not_char (ch " ")) n = true.
Proof.
  intros H. apply fullmatch_sound in H. unfold named, plus in H.
  invert_matches; subst.
  match goal with
  | H1 : all_chars (in_class (NoneOf _)) ?n = true |- _ =>
      exists n; split; [reflexivity|]; split; [reflexivity|]; split
  end.
  - intros ->. simpl in *. lia.
  - now rewrite <- (all_chars_ext _ _ _ (not_char_class (ch " "))).
Qed.

Lemma name_then_match (suffix n : str) :
  n <> [] -> all_chars (not_char (ch " ")) n = true ->
  fullmatch (named "name" (plus (NoneOf [Ch (ch " ")])) >> Lit (ch " " :: suffix))%re
            (n ++ (ch " " :: suffix))
  = Some [("name"%string, n)].
Proof.
  intros Hne Hn. unfold fullmatch. rewrite exec_cat. unfold named, plus.
  rewrite exec_named. apply exec_rep_hit.
  - now rewrite (all_chars_ext _ _ n (not_char_class (ch " "))).
  - reflexivity.
  - now apply length_pos.
  - exact I.
  - cbv beta. rewrite consumed_app.
    rewrite <- (append_nil_r (ch " " :: suffix)) at 2.
    now rewrite exec_lit.
Qed.

Lemma valid_name_token (n : str) :
  _verify_player_name n = true ->
  n <> [] /\ all_chars (not_char (ch " ")) n = true.
Proof.
  intros H. apply verify_player_name_iff in H as [[Hlen _] Hc]. split.
  - intros ->. simpl in Hlen. lia.
  - exact (all_chars_impl _ _ _ name_char_not_blank Hc).
Qed.

Lemma is_user_false (i : Info) :
  is_user i = false <-> source i = SERVER /\ player i = None.
Proof.
  unfold is_user, is_from_console, is_player, is_from_server.
  destruct (source i), (player i); simpl; split; intros H;
    try discriminate; try (destruct H; discriminate); auto.
Qed.

Lemma joined_fact (i : Info) (n : str) :
  result parse_player_joined i = Ret (Some n) <->
  is_user i = false /\ content i = Some (n ++ u " joined the game") /\
  _verify_player_name n = true.
Proof.
  unfold result, parse_player_joined, bind, attr. split.
  - destruct (is_user i); simpl; [discriminate|].
    destruct (content i) as [c|]; simpl; [|discriminate].
    destruct (fullmatch player_joined_regex c) as [x|] eqn:E; simpl; [|discriminate].
    apply name_then_shape in E as (n' & -> & -> & _). simpl.
    destruct (_verify_player_name n') eqn:V; simpl; [|discriminate].
    intros [= <-]. auto.
  - intros (Hu & Hc & Hv). rewrite Hu. simpl. rewrite Hc. simpl.
    destruct (valid_name_token n Hv) as [Hne Hb].
    unfold player_joined_regex.
    pose proof (name_then_match (u "joined the game") n Hne Hb) as Hm.
    change (ch " " :: u "joined the game") with (u " joined the game") in Hm.
    rewrite Hm. simpl.
    now rewrite Hv.
Qed.

Lemma left_fact (i : Info) (n : str) :
  result parse_player_left i = Ret (Some n) <->
  is_user i = false /\ content i = Some (n ++ u " left the game") /\
  _verify_player_name n = true.
Proof.
  unfold result, parse_player_left, bind, attr. split.
  - destruct (is_user i); simpl; [discriminate|].
    destruct (content i) as [c|]; simpl; [|discriminate].
    destruct (fullmatch player_left_regex c) as [x|] eqn:E; simpl; [|discriminate].
    apply name_then_shape in E as (n' & -> & -> & _). simpl.
    destruct (_verify_player_name n') eqn:V; simpl; [|discriminate].
    intros [= <-]. auto.
  - intros (Hu & Hc & Hv). rewrite Hu. simpl. rewrite Hc. simpl.
    destruct (valid_name_token n Hv) as [Hne Hb].
    unfold player_left_regex.
    pose proof (name_then_match (u "left the game") n Hne Hb) as Hm.
    change (ch " " :: u "left the game") with (u " left the game") in Hm.
    rewrite Hm. simpl.
    now rewrite Hv.
Qed.

(** ** The address line *)

Lemma not_space_class a : in_class (NoneOf [Space]) a = not_space a.
Proof. unfold not_space. simpl. now rewrite orb_false_r. Qed.

Lemma digit_not_colon a : is_digit a = true -> not_char (ch ":") a = true.
Proof. apply (class_without is_digit (ch ":") a). vm_compute. reflexivity. Qed.

Lemma address_shape (c : str) (x : captures) :
  fullmatch server_address_regex c = Some x ->
  exists host port,
    x = [("port"%string, port); ("ip"%string, host)] /\
    c = address_prefix ++ host ++ u ":" ++ port /\
    host <> [] /\ all_chars not_space host = true /\ number_text port.
Proof.
  intros H. apply fullmatch_sound in H.
  unfold server_address_regex, named, plus in H. invert_matches; subst.
  match goal with
  | H1 : all_chars (in_class (NoneOf _)) ?a = true,
    H2 : all_chars (in_class (AnyOf [Digit])) ?p = true |- _ =>
      exists a, p; split; [reflexivity|]; split; [|split; [|split; [|split]]]
  end.
  - unfold address_prefix. rewrite ?append_assoc. reflexivity.
  - intros ->. simpl in *. lia.
  - now rewrite <- (all_chars_ext _ _ _ not_space_class).
  - intros ->. simpl in *. lia.
  - now rewrite <- (all_chars_ext _ _ _ digit_class).
Qed.

Lemma address_matches (host port : str) :
  host <> [] -> all_chars not_space host = true -> number_text port ->
  fullmatch server_address_regex (address_prefix ++ host ++ u ":" ++ port)
  = Some [("port"%string, port); ("ip"%string, host)].
Proof.
  intros Hh Hs [Hp Hd].
  assert (M : matches server_address_regex (address_prefix ++ host ++ u ":" ++ port)
                [] [("port"%string, port); ("ip"%string, host)]).
  { unfold server_address_regex, named, plus, address_prefix.
    eapply M_Cat; [apply M_Lit|].
    eapply M_Cat.
    - apply M_Group_named. apply M_Rep.
      + now rewrite (all_chars_ext _ _ _ not_space_class).
      + now apply length_pos.
      + exact I.
    - eapply M_Cat; [apply M_Lit|].
      apply M_Group_named. apply M_Rep.
      + now rewrite (all_chars_ext _ _ _ digit_class).
      + now apply length_pos.
      + exact I. }
  destruct (fullmatch_complete _ _ _ M) as [y Hy]. rewrite Hy. f_equal.
  apply address_shape in Hy as (h' & p' & -> & E & _ & _ & [_ Hd']).
  apply append_inv_head in E.
  apply cut_unique_last in E as [-> ->]; [reflexivity | |].
  - exact (all_chars_impl _ _ _ digit_not_colon Hd).
  - exact (all_chars_impl _ _ _ digit_not_colon Hd').
Qed.

Lemma address_fact (i : Info) (host : str) (number : Z) :
  result parse_server_address i = Ret (Some (host, number)) <->
  is_user i = false /\
  exists port,
    content i = Some (address_prefix ++ host ++ u ":" ++ port) /\
    host <> [] /\ all_chars not_space host = true /\
    number_text port /\ length port <= int_max_str_digits /\
    number = decimal port.
Proof.
  unfold result, parse_server_address, bind, attr. split.
  - destruct (is_user i); simpl; [discriminate|].
    destruct (content i) as [c|]; simpl; [|discriminate].
    destruct (fullmatch server_address_regex c) as [x|] eqn:E; simpl; [|discriminate].
    apply address_shape in E as (h & p & -> & -> & Hh & Hs & Hp). simpl.
    destruct (Nat.le_gt_cases (length p) int_max_str_digits) as [Hl|Hl].
    + rewrite (int_decimal p i Hp Hl). simpl. intros [= <- <-].
      split; [reflexivity|]. exists p. auto 10.
    + destruct (int_of_long_number p i Hp Hl) as [msg ->]. discriminate.
  - intros (Hu & port & Hc & Hh & Hs & Hp & Hl & ->).
    pose proof (address_matches host port Hh Hs Hp) as Hm.
    set (c := address_prefix ++ host ++ u ":" ++ port) in *.
    rewrite Hu. simpl. rewrite Hc. simpl. rewrite Hm. simpl.
    now rewrite (int_decimal port i Hp Hl).
Qed.

(** ** The RCON line and the stop line *)

Lemma rcon_host_class a : in_class (AnyOf [Word; Ch (ch ".")]) a = rcon_host_char a.
Proof. unfold rcon_host_char. simpl. now rewrite orb_false_r. Qed.

Lemma rcon_fact (i : Info) :
  result test_rcon_started i = Ret true <->
  source i = SERVER /\
  exists host port,
    content i = Some (rcon_prefix ++ host ++ u ":" ++ port) /\
    host <> [] /\ all_chars rcon_host_char host = true /\
    number_text port.
Proof.
  unfold result, test_rcon_started, bind, attr, is_from_server. split.
  - destruct (source i); simpl; [|discriminate].
    destruct (content i) as [c|]; simpl; [|discriminate].
    destruct (fullmatch rcon_started_regex c) as [x|] eqn:E; simpl; [|discriminate].
    intros _. split; [reflexivity|].
    apply fullmatch_sound in E. unfold rcon_started_regex, plus in E.
    invert_matches; subst.
    match goal with
    | H1 : all_chars (in_class (AnyOf [Word; _])) ?h = true,
      H2 : all_chars (in_class (AnyOf [Digit])) ?p = true |- _ =>
        exists h, p; split; [|split; [|split; [|split]]]
    end.
    + unfold rcon_prefix. rewrite ?append_assoc. reflexivity.
    + intros ->. simpl in *. lia.
    + now rewrite <- (all_chars_ext _ _ _ rcon_host_class).
    + intros ->. simpl in *. lia.
    + now rewrite <- (all_chars_ext _ _ _ digit_class).
  - intros (Hs & host & port & Hc & Hh & Hw & [Hp Hd]).
    assert (M : matches rcon_started_regex (rcon_prefix ++ host ++ u ":" ++ port) [] []).
    { unfold rcon_started_regex, plus, rcon_prefix.
      eapply M_Cat; [apply M_Lit|]. eapply M_Cat.
      - apply M_Rep; [ | now apply length_pos | exact I].
        now rewrite (all_chars_ext _ _ _ rcon_host_class).
      - eapply M_Cat; [apply M_Lit|].
        apply M_Rep; [ | now apply length_pos | exact I].
        now rewrite (all_chars_ext _ _ _ digit_class). }
    destruct (fullmatch_complete _ _ _ M) as [y Hy].
    set (c := rcon_prefix ++ host ++ u ":" ++ port) in *.
    rewrite Hs. simpl. rewrite Hc. simpl. now rewrite Hy.
Qed.

Lemma stopping_fact (i : Info) :
  result test_server_stopping i = Ret true <->
  source i = SERVER /\ content i = Some (u "Stopping the server").
Proof.
  unfold result, test_server_stopping, bind, attr, is_from_server. split.
  - destruct (source i); simpl; [|discriminate].
    destruct (content i) as [c|]; simpl; [|discriminate].
    destruct (fullmatch server_stopping_regex c) as [x|] eqn:E; simpl; [|discriminate].
    intros _. apply fullmatch_sound in E. unfold server_stopping_regex in E.
    invert_matches; subst. auto.
  - intros [Hs Hc]. rewrite Hs. simpl. rewrite Hc. reflexivity.
Qed.

(** ** One event per line *)

Lemma after_first_blank_app (n : str) (x : char) (rest : str) :
  all_chars (not_char (ch " ")) n = true ->
  after_first_blank (n ++ ch " " :: x :: rest) = Some x.
Proof.
  induction n as [|a n IH]; simpl; intros H; [reflexivity|].
  apply andb_true_iff in H as [Ha Hn]. unfold not_char in Ha.
  destruct (N.eqb a (ch " ")); [discriminate | now apply IH].
Qed.

Lemma keyed_apart (i : Info) (P : Prop) (k : char) (l : list Prop)
  (ks : list char) :
  keyed i P k -> Forall2 (keyed i) l ks -> ~ In k ks ->
  Forall (fun Q => ~ (P /\ Q)) l.
Proof.
  intros HP H. induction H as [|Q k' l ks HQ _ IH]; intros Hin; constructor.
  - intros [p q]. destruct (HP p) as (c & Hc & Hk).
    destruct (HQ q) as (c' & Hc' & Hk'). rewrite Hc in Hc'. injection Hc' as <-.
    rewrite Hk in Hk'. injection Hk' as <-. apply Hin. now left.
  - apply IH. intros H'. apply Hin. now right.
Qed.

Lemma keyed_exclusive (i : Info) (l : list Prop) (ks : list char) :
  Forall2 (keyed i) l ks -> NoDup ks ->
  ForallOrdPairs (fun P Q => ~ (P /\ Q)) l.
Proof.
  intros H. induction H as [|P k l ks HP Hl IH]; intros Hnd; constructor.
  - inversion Hnd; subst. now apply (keyed_apart i P k l ks).
  - inversion Hnd; subst. now apply IH.
Qed.

Lemma joined_keyed i : keyed i (gives parse_player_joined i) (ch "j").
Proof.
  intros [n H]. apply joined_fact in H as (_ & Hc & Hv).
  eexists. split; [exact Hc|].
  apply valid_name_token in Hv as [_ Hb]. now apply after_first_blank_app.
Qed.

Lemma left_keyed i : keyed i (gives parse_player_left i) (ch "l").
Proof.
  intros [n H]. apply left_fact in H as (_ & Hc & Hv).
  eexists. split; [exact Hc|].
  apply valid_name_token in Hv as [_ Hb]. now apply after_first_blank_app.
Qed.

Lemma version_keyed i : keyed i (gives parse_server_version i) (ch "P").
Proof.
  intros [v H]. unfold result, parse_server_version, bind, attr in H.
  destruct (negb (is_user i)); simpl in H; [|discriminate].
  destruct (content i) as [c|]; simpl in H; [|discriminate].
  destruct (fullmatch server_version_regex c) as [x|] eqn:E; [|discriminate].
  apply version_inv in E as (a & b & v' & p & -> & _).
  eexists. split; reflexivity.
Qed.

Lemma address_keyed i : keyed i (gives parse_server_address i) (ch "n").
Proof.
  intros [[h z] H]. apply address_fact in H as (_ & p & Hc & _).
  eexists. split; [exact Hc | reflexivity].
Qed.

Lemma rcon_keyed i : keyed i (holds test_rcon_started i) (ch "r").
Proof.
  intros H. apply rcon_fact in H as (_ & h & p & Hc & _).
  eexists. split; [exact Hc | reflexivity].
Qed.

Lemma stopping_keyed i : keyed i (holds test_server_stopping i) (ch "t").
Proof.
  intros H. apply stopping_fact in H as (_ & Hc).
  eexists. split; [exact Hc | reflexivity].
Qed.

Lemma events_exclusive_fact (i : Info) :
  ForallOrdPairs (fun P Q => ~ (P /\ Q)) (events i).
Proof.
  apply (keyed_exclusive i _ [ch "j"; ch "l"; ch "P"; ch "n"; ch "r"; ch "t"]).
  - repeat constructor;
      auto using joined_keyed, left_keyed, version_keyed, address_keyed,
        rcon_keyed, stopping_keyed.
  - repeat constructor; cbv; intuition discriminate.
Qed.

(** ** When a query raises *)

Ltac name_query_raises :=
  unfold raises, result, bind, attr;
  match goal with |- context [is_user ?i] => destruct (is_user i) end; simpl;
  [ split; [intros [? ?]; discriminate | intros [_ ?]; discriminate]
  | match goal with |- context [content ?i] => destruct (content i) end;
    simpl;
    [ split; [|intros [? _]; discriminate];
      let H := fresh "H" in
      let E := fresh "E" in
      intros [? H]; exfalso;
      match type of H with
      | context [fullmatch ?r ?c] => destruct (fullmatch r c) eqn:E
      end; simpl in H; [|discriminate];
      apply name_then_shape in E as (? & -> & _); simpl in H;
      match type of H with
      | context [_verify_player_name ?n] => destruct (_verify_player_name n)
      end; discriminate
    | split; eauto ] ].

Lemma joined_raises (i : Info) :
  raises parse_player_joined i <-> content i = None /\ is_user i = false.
Proof. unfold parse_player_joined, player_joined_regex. name_query_raises. Qed.

Lemma left_raises (i : Info) :
  raises parse_player_left i <-> content i = None /\ is_user i = false.
Proof. unfold parse_player_left, player_left_regex. name_query_raises. Qed.

Lemma version_raises (i : Info) :
  raises parse_server_version i <-> content i = None /\ is_user i = false.
Proof.
  unfold raises, result, parse_server_version, bind, attr.
  destruct (is_user i); simpl.
  - split; [intros [e H]; discriminate | intros [_ H]; discriminate].
  - destruct (content i) as [c|]; simpl.
    + split; [|intros [H _]; discriminate]. intros [e H]. exfalso.
      destruct (fullmatch server_version_regex c) as [x|] eqn:E; simpl in H;
        [|discriminate].
      apply version_inv in E as (a & b & v & p & _ & -> & _). discriminate.
    + split; eauto.
Qed.

(** The address parser raises on a record without content and, by
    [int], on an address line whose port is beyond the limit on digits. *)
Lemma address_raises (i : Info) :
  raises parse_server_address i <->
  is_user i = false /\
  (content i = None \/
   exists host port,
     content i = Some (address_prefix ++ host ++ u ":" ++ port) /\
     host <> [] /\ all_chars not_space host = true /\
     number_text port /\ int_max_str_digits < length port).
Proof.
  unfold raises, result, parse_server_address, bind, attr. split.
  - destruct (is_user i); cbn [negb]; [intros [e H]; discriminate|].
    intros [e H]. split; [reflexivity|].
    destruct (content i) as [c|]; [right | now left].
    simpl in H.
    destruct (fullmatch server_address_regex c) as [x|] eqn:E;
      simpl in H; [|discriminate].
    apply address_shape in E as (h & p & -> & -> & Hh & Hs & Hp).
    simpl in H.
    destruct (Nat.le_gt_cases (length p) int_max_str_digits) as [Hl|Hl].
    + rewrite (int_decimal p i Hp Hl) in H. discriminate.
    + exists h, p. auto 10.
  - intros [Hu [Hc | (h & p & Hc & Hh & Hs & Hp & Hl)]]; rewrite Hu; simpl.
    + rewrite Hc. simpl. eauto.
    + pose proof (address_matches h p Hh Hs Hp) as Hm.
      set (c := address_prefix ++ h ++ u ":" ++ p) in *.
      rewrite Hc. simpl. rewrite Hm. simpl.
      destruct (int_of_long_number p i Hp Hl) as [msg ->]. simpl. eauto.
Qed.

(** The [ValueError] of the address parser is that of [int]: it comes
    exactly with an address line whose port is beyond the limit. *)
Lemma address_value_error (i : Info) :
  (exists msg, result parse_server_address i = Raise (ValueError msg)) <->
  is_user i = false /\
  exists host port,
    content i = Some (address_prefix ++ host ++ u ":" ++ port) /\
    host <> [] /\ all_chars not_space host = true /\
    number_text port /\ int_max_str_digits < length port.
Proof.
  split.
  - intros [msg H].
    assert (R : raises parse_server_address i) by (eexists; exact H).
    apply address_raises in R as [Hu [Hc | R]]; [|now split].
    unfold result, parse_server_address, bind, attr in H.
    rewrite Hu in H. simpl in H. rewrite Hc in H. discriminate.
  - intros [Hu (h & p & Hc & Hh & Hs & Hp & Hl)].
    pose proof (address_matches h p Hh Hs Hp) as Hm.
    set (c := address_prefix ++ h ++ u ":" ++ p) in *.
    unfold result, parse_server_address, bind, attr.
    rewrite Hu. simpl. rewrite Hc. simpl. rewrite Hm. simpl.
    destruct (int_of_long_number p i Hp Hl) as [msg ->]. simpl. eauto.
Qed.

Ltac test_query_raises :=
  unfold raises, result, bind, attr, is_from_server;
  match goal with |- context [source ?i] => destruct (source i) end; simpl;
  [ match goal with |- context [content ?i] => destruct (content i) end;
    simpl;
    [ split; [intros [? ?]; discriminate | intros [? _]; discriminate]
    | split; eauto ]
  | split; [intros [? ?]; discriminate | intros [_ ?]; discriminate] ].

Lemma startup_done_raises (i : Info) :
  raises test_server_startup_done i <-> content i = None /\ source i = SERVER.
Proof. unfold test_server_startup_done. test_query_raises. Qed.

Lemma rcon_raises (i : Info) :
  raises test_rcon_started i <-> content i = None /\ source i = SERVER.
Proof. unfold test_rcon_started. test_query_raises. Qed.

Lemma stopping_raises (i : Info) :
  raises test_server_stopping i <-> content i = None /\ source i = SERVER.
Proof. unfold test_server_stopping. test_query_raises. Qed.

Lemma queries_raise_fact (i : Info) :
  (raises parse_player_joined i <-> content i = None /\ is_user i = false) /\
  (raises parse_player_left i <-> content i = None /\ is_user i = false) /\
  (raises parse_server_version i <-> content i = None /\ is_user i = false) /\
  (raises parse_server_address i <->
   is_user i = false /\
   (content i = None \/
    exists host port,
      content i = Some (address_prefix ++ host ++ u ":" ++ port) /\
      host <> [] /\ all_chars not_space host = true /\
      number_text port /\ int_max_str_digits < length port)) /\
  (raises test_server_startup_done i <-> content i = None /\ source i = SERVER) /\
  (raises test_rcon_started i <-> content i = None /\ source i = SERVER) /\
  (raises test_server_stopping i <-> content i = None /\ source i = SERVER).
Proof.
  split; [apply joined_raises|]. split; [apply left_raises|].
  split; [apply version_raises|]. split; [apply address_raises|].
  split; [apply startup_done_raises|]. split; [apply rcon_raises|].
  apply stopping_raises.
Qed.

(** ** Commands on one line *)





Section PlainCommands.

Context {RTextBase ServerInformation : Type} (to_json_str : RTextBase -> str).


End PlainCommands.

(** ** What [parse_server_stdout] accepts and returns *)

Lemma digit_not_line_feed a : is_digit a = true -> not_char line_feed a = true.
Proof. apply (class_without is_digit line_feed a). vm_compute. reflexivity. Qed.

Lemma content_formatter_shape (c : str) (x : captures) :
  fullmatch get_content_parsing_formatter c = Some x ->
  exists L tag M,
    x = [("content"%string, M); ("logging"%string, L)] /\ c = log_line L tag M /\
    level_text L /\ one_line M /\
    match tag with Some n => number_text n | None => True end.
Proof.
  intros H. apply fullmatch_sound in H.
  unfold get_content_parsing_formatter, named, unnamed, plus, star in H.
  invert_matches; subst.
  - match goal with
    | H1 : all_chars (in_class (NoneOf _)) ?l = true,
      H2 : all_chars (in_class Dot) ?m = true,
      H3 : all_chars (in_class (AnyOf [Digit])) ?n = true |- _ =>
        exists l, (Some n), m; split; [reflexivity|]; split; [|split; [|split]]
    end.
    + unfold log_line. rewrite ?append_assoc. reflexivity.
    + split; [intros ->; simpl in *; lia|].
      now rewrite <- (all_chars_ext _ _ _ (not_char_class (ch "]"))).
    + unfold one_line. now rewrite <- (all_chars_ext _ _ _ dot_class).
    + split; [intros ->; simpl in *; lia|].
      now rewrite <- (all_chars_ext _ _ _ digit_class).
  - match goal with
    | H1 : all_chars (in_class (NoneOf _)) ?l = true,
      H2 : all_chars (in_class Dot) ?m = true |- _ =>
        exists l, None, m; split; [reflexivity|]; split; [|split; [|split]]
    end.
    + unfold log_line. rewrite ?append_assoc. reflexivity.
    + split; [intros ->; simpl in *; lia|].
      now rewrite <- (all_chars_ext _ _ _ (not_char_class (ch "]"))).
    + unfold one_line. now rewrite <- (all_chars_ext _ _ _ dot_class).
    + exact I.
Qed.

Lemma log_line_level (L L' : str) (tag : option str) (M M' : str) :
  level_text L -> level_text L' ->
  (u "[") ++ L ++ u "] " ++ M = log_line L' tag M' -> L = L'.
Proof.
  intros [_ HL] [_ HL'] E. unfold log_line in E. simpl in E.
  injection E as E. now apply cut_unique in E as [-> _].
Qed.

Lemma bracket_line_matches (L M : str) :
  level_text L -> one_line M ->
  exists kept,
    fullmatch get_content_parsing_formatter (u "[" ++ L ++ u "] " ++ M)
    = Some [("content"%string, kept); ("logging"%string, L)].
Proof.
  intros HL HM.
  assert (D : matches get_content_parsing_formatter
                (u "[" ++ L ++ u "]" ++ [] ++ u " " ++ M) []
                [("content"%string, M); ("logging"%string, L)]).
  { unfold get_content_parsing_formatter, named, plus, star.
    destruct HL as [HL1 HL2].
    eapply M_Cat; [apply M_Lit|]. eapply M_Cat.
    - apply M_Group_named. apply M_Rep; [ | now apply length_pos | exact I].
      now rewrite (all_chars_ext _ _ _ (not_char_class (ch "]"))).
    - eapply M_Cat; [apply M_Lit|]. eapply M_Cat; [apply M_Opt_none|].
      eapply M_Cat; [apply M_Lit|].
      apply M_Group_named. apply M_Rep; [ | apply Nat.le_0_l | exact I].
      now rewrite (all_chars_ext _ _ _ dot_class). }
  change (u "[" ++ L ++ u "]" ++ [] ++ u " " ++ M) with (u "[" ++ L ++ u "] " ++ M) in D.
  destruct (fullmatch_complete _ _ _ D) as [y Hy].
  apply content_formatter_shape in Hy as Hs.
  destruct Hs as (L' & tag & M' & -> & E & HL' & _).
  apply log_line_level in E as <-; [|assumption|assumption].
  now exists M'.
Qed.

Lemma chat_line_one_line (n msg : str) :
  one_line (chat_line n msg) -> one_line msg.
Proof.
  unfold one_line, chat_line. rewrite !all_chars_app. intros H.
  repeat (apply andb_true_iff in H as [_ H]). exact H.
Qed.

Lemma chat_line_name (n n' msg msg' : str) :
  all_chars (not_char (ch ":")) n = true -> all_chars (not_char (ch ":")) n' = true ->
  chat_line n msg = chat_line n' msg' -> n = n' /\ msg = msg'.
Proof.
  intros H H' E. unfold chat_line in E. simpl in E. injection E as E.
  apply cut_unique in E as [-> E]; [|assumption|assumption].
  now injection E.
Qed.

(** The chat loop on a record with a content: it sets the player and the
    message of a chat line with a valid name, and leaves the record as it
    is otherwise. *)
Lemma scan_outcome (i : Info) (c : str) :
  content i = Some c -> one_line c ->
  (scan_player_message get_player_message_parsers i = (Ret tt, i) /\
   forall n msg, c = chat_line n msg -> all_chars (not_char (ch ":")) n = true ->
                 _verify_player_name n = false) \/
  (exists n msg, c = chat_line n msg /\ _verify_player_name n = true /\
     scan_player_message get_player_message_parsers i
     = (Ret tt, set_content (Some msg) (set_player (Some n) i))).
Proof.
  intros Hc Hl.
  destruct (fullmatch player_message_regex c) as [x|] eqn:E.
  - apply chat_inv in E as E'. destruct E' as (N & Mg & -> & -> & HN1 & HN2).
    destruct (_verify_player_name N) eqn:V.
    + right. exists N, Mg. split; [reflexivity|]. split; [exact V|].
      apply scan_chat_valid; [exact Hc | now apply chat_line_one_line in Hl | exact V].
    + left. split; [now apply (scan_chat_invalid i N Mg)|].
      intros n msg E' Hn. apply chat_line_name in E' as [<- _]; assumption.
  - left. split.
    + unfold scan_player_message, get_player_message_parsers,
        get_player_message_parsing_formatter, bind, attr.
      rewrite Hc. simpl re_fullmatch. unfold ret. now rewrite E.
    + intros n msg -> Hn. destruct (_verify_player_name n) eqn:V; [|reflexivity].
      apply verify_player_name_iff in V as [[Hlen _] _].
      rewrite chat_match in E; [discriminate | | exact Hn |].
      * intros ->. simpl in Hlen. lia.
      * now apply chat_line_one_line in Hl.
Qed.

Section StdoutOutcome.

Variable clean : str -> str.

Lemma super_of_match t text L M :
  fullmatch get_content_parsing_formatter (clean text)
  = Some [("content"%string, M); ("logging"%string, L)] ->
  super_parse_server_stdout clean t text
  = Ret (parsed_record t (_get_server_stdout_raw_result clean text) L M).
Proof.
  intros E. unfold super_parse_server_stdout, returning.
  now rewrite (content_parse_of_match t (_get_server_stdout_raw_result clean text)
                 (clean text) L M eq_refl E).
Qed.

Lemma stdout_unmatched t text :
  fullmatch get_content_parsing_formatter (clean text) = None ->
  parse_server_stdout clean t text
  = Raise (ValueError (u "Unrecognized input: " ++ clean text)).
Proof.
  intros E. unfold parse_server_stdout, super_parse_server_stdout, returning.
  now rewrite (content_parse_unmatched t (_get_server_stdout_raw_result clean text)
                 (clean text) eq_refl E).
Qed.

(** The record of an accepted line, before and after the chat loop. *)
Lemma stdout_outcome t text :
  (parse_server_stdout clean t text
   = Raise (ValueError (u "Unrecognized input: " ++ clean text)) /\
   fullmatch get_content_parsing_formatter (clean text) = None) \/
  (exists L tag M,
     clean text = log_line L tag M /\ level_text L /\ one_line M /\
     match tag with Some n => number_text n | None => True end /\
     let r := parsed_record t (_get_server_stdout_raw_result clean text) L M in
     (parse_server_stdout clean t text = Ret r /\
      forall n msg, M = chat_line n msg -> all_chars (not_char (ch ":")) n = true ->
                    _verify_player_name n = false) \/
     (exists n msg, M = chat_line n msg /\ _verify_player_name n = true /\
        parse_server_stdout clean t text
        = Ret (set_content (Some msg) (set_player (Some n) r)))).
Proof.
  destruct (fullmatch get_content_parsing_formatter (clean text)) as [x|] eqn:E.
  - right. apply content_formatter_shape in E as E'.
    destruct E' as (L & tag & M & -> & Hc & HL & HM & Ht).
    exists L, tag, M. repeat (split; [assumption|]).
    intros r. unfold parse_server_stdout.
    rewrite (super_of_match t text L M E). fold r. unfold returning.
    destruct (scan_outcome r M eq_refl HM) as [[Hs Hn] | (n & msg & -> & V & Hs)].
    + left. now rewrite Hs.
    + right. exists n, msg. now rewrite Hs.
  - left. split; [now apply stdout_unmatched | reflexivity].
Qed.

End StdoutOutcome.

Lemma startup_fact (i : Info) :
  result test_server_startup_done i = Ret true <->
  source i = SERVER /\
  exists host port,
    content i = Some (address_prefix ++ host ++ u ":" ++ port) /\
    host <> [] /\ all_chars not_space host = true /\
    number_text port.
Proof.
  unfold result, test_server_startup_done, bind, attr, is_from_server. split.
  - destruct (source i); simpl; [|discriminate].
    destruct (content i) as [c|]; simpl; [|discriminate].
    destruct (fullmatch server_address_regex c) as [x|] eqn:E; simpl; [|discriminate].
    intros _. split; [reflexivity|].
    apply address_shape in E as (h & p & _ & -> & Hh & Hs & Hp).
    exists h, p. auto.
  - intros (Hs & host & port & Hc & Hh & Hw & Hp).
    pose proof (address_matches host port Hh Hw Hp) as Hm.
    set (c := address_prefix ++ host ++ u ":" ++ port) in *.
    rewrite Hs. simpl. rewrite Hc. simpl. now rewrite Hm.
Qed.

Lemma user_gets_nothing (i : Info) :
  is_user i = true ->
  result parse_player_joined i = Ret None /\
  result parse_player_left i = Ret None /\
  result parse_server_version i = Ret None /\
  result parse_server_address i = Ret None.
Proof.
  intros H.
  unfold result, parse_player_joined, parse_player_left, parse_server_version,
    parse_server_address, bind, attr.
  rewrite H. repeat split.
Qed.

Lemma chat_line_not_tagged (n msg : str) : ~ tagged (chat_line n msg).
Proof. intros (k & rest & _ & E). discriminate E. Qed.

Section StdoutFacts.

Variable clean : str -> str.

Lemma stdout_accepts_fact (t : struct_time) (text : str) :
  ((exists r, parse_server_stdout clean t text = Ret r) <->
   (exists L M, level_text L /\ one_line M /\
                clean text = u "[" ++ L ++ u "] " ++ M)) /\
  (forall e, parse_server_stdout clean t text = Raise e ->
             e = ValueError (u "Unrecognized input: " ++ clean text)).
Proof.
  destruct (stdout_outcome clean t text)
    as [[Hr Hn] | (L & tag & M & Hc & HL & HM & Ht & H)].
  - split.
    + split.
      * intros [r H]. rewrite Hr in H. discriminate.
      * intros (L & M & HL & HM & E). rewrite E in Hn.
        destruct (bracket_line_matches L M HL HM) as [kept Hk].
        rewrite Hk in Hn. discriminate.
    + intros e H. rewrite Hr in H. now injection H as <-.
  - split.
    + split.
      * intros _. destruct tag as [n|].
        -- exists L, (u "(" ++ n ++ u ") " ++ M). split; [exact HL|]. split.
           ++ destruct Ht as [_ Hd]. unfold one_line in *.
              rewrite !all_chars_app, HM.
              rewrite (all_chars_impl _ _ _ digit_not_line_feed Hd). reflexivity.
           ++ rewrite Hc. unfold log_line. rewrite !append_assoc. reflexivity.
        -- exists L, M. split; [exact HL|]. split; [exact HM | exact Hc].
      * intros _. cbv zeta in H.
        destruct H as [[H _] | (n & msg & _ & _ & H)]; eauto.
    + intros e He. cbv zeta in H.
      destruct H as [[H _] | (n & msg & _ & _ & H)]; rewrite H in He; discriminate.
Qed.

Lemma stdout_record_fact (t : struct_time) (text : str) (r : Info) :
  parse_server_stdout clean t text = Ret r ->
  source r = SERVER /\ raw_content r = text /\
  hour r = Some (tm_hour t) /\ min r = Some (tm_min t) /\
  sec r = Some (tm_sec t) /\
  exists L tag M,
    clean text = log_line L tag M /\ level_text L /\ one_line M /\
    logging_level r = Some L /\
    ((player r = None /\ content r = Some M /\
      forall n msg, M = chat_line n msg -> all_chars (not_char (ch ":")) n = true ->
                    _verify_player_name n = false) \/
     (exists n msg, M = chat_line n msg /\ _verify_player_name n = true /\
                    player r = Some n /\ content r = Some msg)).
Proof.
  intros Hr.
  destruct (stdout_outcome clean t text)
    as [[Hx _] | (L & tag & M & Hc & HL & HM & _ & H)].
  - rewrite Hx in Hr. discriminate.
  - cbv zeta in H. destruct H as [[H Hn] | (n & msg & E & V & H)];
      rewrite H in Hr; injection Hr as <-; repeat (split; [reflexivity|]);
      exists L, tag, M; repeat (split; [assumption || reflexivity|]).
    + left. auto.
    + right. exists n, msg. auto.
Qed.

Lemma chat_reaches_tests_fact (t : struct_time) (level name msg : str) :
  level_text level -> _verify_player_name name = true -> one_line msg ->
  clean (log_line level None (chat_line name msg))
  = log_line level None (chat_line name msg) ->
  exists r,
    parse_server_stdout clean t (log_line level None (chat_line name msg)) = Ret r /\
    player r = Some name /\ content r = Some msg /\
    result parse_player_joined r = Ret None /\
    result parse_player_left r = Ret None /\
    result parse_server_version r = Ret None /\
    result parse_server_address r = Ret None /\
    (result test_server_stopping r = Ret true <-> msg = u "Stopping the server") /\
    (result test_server_startup_done r = Ret true <->
     exists host port,
       msg = address_prefix ++ host ++ u ":" ++ port /\ host <> [] /\
       all_chars not_space host = true /\ number_text port) /\
    (result test_rcon_started r = Ret true <->
     exists host port,
       msg = rcon_prefix ++ host ++ u ":" ++ port /\ host <> [] /\
       all_chars rcon_host_char host = true /\ number_text port).
Proof.
  intros HL HV Hm Hclean.
  set (text := log_line level None (chat_line name msg)) in *.
  set (r0 := parsed_record t (_get_server_stdout_raw_result clean text)
               level (chat_line name msg)).
  exists (set_content (Some msg) (set_player (Some name) r0)).
  assert (Hline : one_line (chat_line name msg)).
  { apply verify_player_name_iff in HV as [_ Hc].
    unfold one_line, chat_line in *. rewrite !all_chars_app, Hm.
    assert (N : forall a, name_char a = true -> not_char line_feed a = true)
      by (intros a; exact (class_without name_char line_feed a eq_refl)).
    now rewrite (all_chars_impl _ _ _ N Hc). }
  split.
  - unfold parse_server_stdout.
    rewrite (super_of_match clean t text level (chat_line name msg)).
    + fold r0. unfold returning.
      now rewrite (scan_chat_valid r0 name msg eq_refl Hm HV).
    + rewrite Hclean. apply content_formatter_match; [exact HL | exact Hline |].
      apply chat_line_not_tagged.
  - split; [reflexivity|]. split; [reflexivity|].
    destruct (user_gets_nothing (set_content (Some msg) (set_player (Some name) r0)))
      as (J & Lf & V & A); [reflexivity|].
    repeat (split; [assumption|]).
    split; [|split].
    + rewrite stopping_fact. simpl. split.
      * now intros [_ [= ->]].
      * intros ->. auto.
    + rewrite startup_fact. simpl. split.
      * intros [_ (h & p & [= ->] & H)]. eauto.
      * intros (h & p & -> & H). eauto 6.
    + rewrite rcon_fact. simpl. split.
      * intros [_ (h & p & [= ->] & H)]. eauto.
      * intros (h & p & -> & H). eauto 6.
Qed.

End StdoutFacts.

(** ** The version line, as the pattern reads it *)

Lemma build_class a :
  in_class (AnyOf [Rng (ch "a") (ch "z"); Rng (ch "0") (ch "9"); Ch (ch "_")]) a = build_char a.
Proof.
  change (in_class _ a)
    with (between 97 122 a || (between 48 57 a || (N.eqb a 95 || false))).
  unfold build_char.
  destruct (between 97 122 a), (between 48 57 a), (N.eqb a 95); reflexivity.
Qed.

Lemma letter_d_class a : in_class (AnyOf [Ch (ch "d")]) a = letter_d a.
Proof. unfold letter_d. simpl. now rewrite orb_false_r. Qed.

Lemma build_char_not_paren a : build_char a = true -> not_char (ch ")") a = true.
Proof. exact (class_without build_char (ch ")") a eq_refl). Qed.

Lemma letter_d_not_blank a : letter_d a = true -> not_char (ch " ") a = true.
Proof. exact (class_without letter_d (ch " ") a eq_refl). Qed.

Lemma version_shape (c : str) (x : captures) :
  fullmatch server_version_regex c = Some x ->
  exists ver build version protocol,
    c = version_line ver build version protocol /\
    x = [("version"%string, version)] /\
    version_fields ver build version protocol.
Proof.
  intros H. apply fullmatch_sound in H.
  unfold server_version_regex, named, unnamed, plus in H. invert_matches; subst.
  match goal with
  | H1 : all_chars (in_class (NoneOf [Ch (ch " ")])) ?v = true,
    H2 : all_chars (in_class (AnyOf [_; _; _])) ?b = true,
    H3 : all_chars (in_class Dot) ?n = true,
    H4 : all_chars (in_class (AnyOf [Ch (ch "d")])) ?p = true |- _ =>
      exists v, b, n, p; split; [|split; [reflexivity|]]
  end.
  - unfold version_line. rewrite ?append_assoc. reflexivity.
  - unfold version_fields, one_line. simpl fits in *.
    rewrite <- (all_chars_ext _ _ _ (not_char_class (ch " "))).
    rewrite <- (all_chars_ext _ _ _ build_class).
    rewrite <- (all_chars_ext _ _ _ dot_class).
    rewrite <- (all_chars_ext _ _ _ letter_d_class).
    repeat split; try assumption; try lia;
      intros ->; simpl in *; lia.
Qed.

Lemma version_line_version (ver build v p ver' build' v' p' : str) :
  version_fields ver build v p -> version_fields ver' build' v' p' ->
  version_line ver build v p = version_line ver' build' v' p' -> v = v'.
Proof.
  intros ((_ & Hv) & (_ & Hb) & _ & (_ & Hp)) ((_ & Hv') & (_ & Hb') & _ & (_ & Hp')) E.
  unfold version_line in E. apply append_inv_head in E.
  apply cut_unique in E as [_ E]; [|assumption|assumption].
  injection E as E.
  apply cut_unique in E as [_ E];
    [ | exact (all_chars_impl _ _ _ build_char_not_paren Hb)
      | exact (all_chars_impl _ _ _ build_char_not_paren Hb') ].
  repeat (injection E as E).
  assert (E' : (v ++ u " (Protocol") ++ (ch " " :: (p ++ u ")"))
               = (v' ++ u " (Protocol") ++ (ch " " :: (p' ++ u ")")))
    by (rewrite !append_assoc; exact E).
  clear E. rename E' into E.
  apply cut_unique_last in E as [E _].
  - now apply append_inv_tail in E.
  - rewrite all_chars_app, (all_chars_impl _ _ _ letter_d_not_blank Hp). reflexivity.
  - rewrite all_chars_app, (all_chars_impl _ _ _ letter_d_not_blank Hp'). reflexivity.
Qed.

Lemma version_matches (ver build v p : str) :
  version_fields ver build v p ->
  fullmatch server_version_regex (version_line ver build v p)
  = Some [("version"%string, v)].
Proof.
  intros F.
  assert (D : matches server_version_regex (version_line ver build v p) []
                [("version"%string, v)]).
  { destruct F as ((Hv1 & Hv2) & (Hb1 & Hb2) & (Hn1 & Hn2) & (Hp1 & Hp2)).
    unfold server_version_regex, named, unnamed, plus, version_line.
    eapply M_Cat; [apply M_Lit|]. eapply M_Cat.
    - apply M_Group_anon. apply M_Rep; [ | now apply length_pos | exact I].
      now rewrite (all_chars_ext _ _ _ (not_char_class (ch " "))).
    - eapply M_Cat; [apply M_Lit|]. eapply M_Cat.
      + apply M_Rep; [ | lia | simpl; lia].
        now rewrite (all_chars_ext _ _ _ build_class).
      + eapply M_Cat; [apply M_Lit|]. eapply M_Cat.
        * apply M_Group_named. apply M_Rep; [ | now apply length_pos | exact I].
          now rewrite (all_chars_ext _ _ _ dot_class).
        * eapply M_Cat; [apply M_Lit|].
          rewrite <- (append_nil_r (u ")")) at 2. eapply M_Cat; [|apply M_Lit].
          apply M_Group_anon. apply M_Rep; [ | now apply length_pos | exact I].
          now rewrite (all_chars_ext _ _ _ letter_d_class). }
  destruct (fullmatch_complete _ _ _ D) as [y Hy]. rewrite Hy. f_equal.
  apply version_shape in Hy as (a & b & v' & q & E & -> & F').
  now rewrite (version_line_version _ _ _ _ _ _ _ _ F F' E).
Qed.

Lemma version_fact (i : Info) (v : str) :
  result parse_server_version i = Ret (Some v) <->
  is_user i = false /\
  exists ver build protocol,
    content i = Some (version_line ver build v protocol) /\
    version_fields ver build v protocol.
Proof.
  unfold result, parse_server_version, bind, attr. split.
  - destruct (is_user i); simpl; [discriminate|].
    destruct (content i) as [c|]; simpl; [|discriminate].
    destruct (fullmatch server_version_regex c) as [x|] eqn:E; simpl; [|discriminate].
    apply version_shape in E as (a & b & v' & p & -> & -> & F). simpl.
    intros [= <-]. split; [reflexivity|]. exists a, b, p. auto.
  - intros (Hu & ver & build & p & Hc & F).
    pose proof (version_matches ver build v p F) as Hm.
    set (c := version_line ver build v p) in *.
    rewrite Hu. simpl. rewrite Hc. simpl. now rewrite Hm.
Qed.

(** * The properties of the handler *)

(** C1. A line [[LEVEL] MESSAGE], or [[LEVEL] (N) MESSAGE] with a numeric
    tag, is accepted by [_content_parse]: the record gets LEVEL as its
    logging level and exactly MESSAGE as its content, and its hour, minute
    and second are those of the clock [t] read by the call, whatever the
    text says.  A tag in front of the message is read as the tag: a line
    is without tag when its message does not open with one.  The digits
    of a tag are those of [\d], of whatever script. *)
Theorem content_parse_recovers (t : struct_time) (i : Info)
  (level : str) (tag : option str) (message : str) :
  level_text level -> one_line message -> tag_ok tag message ->
  content i = Some (log_line level tag message) ->
  _content_parse t i = (Ret tt, parsed_record t i level message).
Proof.
  intros HL HM HT Hc.
  apply (content_parse_of_match t i _ level message Hc).
  now apply content_formatter_match.
Qed.

Lemma content_parse_recovers_witness :
  _content_parse (mkTime 23 59 58) (server_record (u "[INFO] (7) 12:00:00 up"))
  = (Ret tt,
     mkInfo SERVER (u "[INFO] (7) 12:00:00 up") (Some (u "12:00:00 up")) None
            (Some 23%Z) (Some 59%Z) (Some 58%Z) (Some (u "INFO"))).
Proof.
  apply (content_parse_recovers (mkTime 23 59 58)
           (server_record (u "[INFO] (7) 12:00:00 up")) (u "INFO") (Some (u "7"))
           (u "12:00:00 up")).
  - split; [discriminate | reflexivity].
  - reflexivity.
  - split; [discriminate | reflexivity].
  - reflexivity.
Defined.

(** The same for a line without tag. *)
Example content_parse_untagged :
  _content_parse noon (server_record (u "[WARN] low memory"))
  = (Ret tt, parsed_record noon (server_record (u "[WARN] low memory"))
               (u "WARN") (u "low memory")).
Proof.
  apply (content_parse_of_match _ _ (u "[WARN] low memory")); [reflexivity|].
  apply (content_formatter_match (u "WARN") None (u "low memory")).
  - split; [discriminate | reflexivity].
  - reflexivity.
  - intros (n & rest & _ & E). discriminate E.
Qed.

(** A tag in the digits of another script is a tag as well: here the
    Arabic-Indic digit seven, U+0667. *)
Example content_parse_arabic_indic_tag :
  tagged (u "(" ++ [1639%N] ++ u ") hello") /\
  _content_parse noon
    (server_record (u "[INFO] (" ++ [1639%N] ++ u ") hello"))
  = (Ret tt,
     parsed_record noon
       (server_record (u "[INFO] (" ++ [1639%N] ++ u ") hello"))
       (u "INFO") (u "hello")).
Proof.
  split.
  - exists [1639%N], (u "hello").
    split; [split; [discriminate | vm_compute; reflexivity] | reflexivity].
  - vm_compute. reflexivity.
Qed.

(** C2. When the content matches none of the configured patterns,
    [_content_parse] raises a [ValueError] whose message carries the
    text, and the record is as it was; [parse_server_stdout] then raises
    too, so that no record reaches its caller. *)
Theorem unrecognized_content_is_rejected (t : struct_time) (i : Info)
  (c : str) :
  content i = Some c ->
  (forall parser, In parser get_content_parsers -> fullmatch parser c = None) ->
  _content_parse t i = (Raise (ValueError (u "Unrecognized input: " ++ c)), i) /\
  (forall clean text, clean text = c ->
     parse_server_stdout clean t text
     = Raise (ValueError (u "Unrecognized input: " ++ c))).
Proof.
  intros Hc Hnone.
  assert (E : fullmatch get_content_parsing_formatter c = None)
    by (apply Hnone; left; reflexivity).
  split; [now apply content_parse_unmatched|].
  intros clean text <-.
  unfold parse_server_stdout, super_parse_server_stdout, returning.
  rewrite (content_parse_unmatched t _ (clean text)); [reflexivity | reflexivity | exact E].
Qed.

Lemma unrecognized_content_is_rejected_witness :
  _content_parse noon (server_record (u "INFO hello"))
  = (Raise (ValueError (u "Unrecognized input: INFO hello")),
     server_record (u "INFO hello")).
Proof.
  refine (proj1 (unrecognized_content_is_rejected noon
                   (server_record (u "INFO hello")) (u "INFO hello") eq_refl _)).
  intros parser [<- | []]. reflexivity.
Defined.

(** C3 (the code misses it). On the line that announces version 1.21.4
    with protocol number 769, [parse_server_version] returns no match;
    it returns the version when the protocol field is made of the letter
    [d]. *)
Theorem server_version_misses_decimal_protocol :
  result parse_server_version (server_record version_769) = Ret None /\
  result parse_server_version (server_record version_ddd) = Ret (Some (u "1.21.4")).
Proof. split; vm_compute; reflexivity. Qed.

(** X2. The miss is general: no protocol number written in digits is
    accepted, whatever the versions and the build around it. *)
Theorem server_version_never_with_digits (i : Info)
  (ver build version protocol : str) :
  number_text protocol ->
  content i = Some (version_line ver build version protocol) ->
  result parse_server_version i = Ret None.
Proof.
  intros Hn Hc. unfold result, parse_server_version, bind, attr.
  destruct (negb (is_user i)); simpl; [|reflexivity].
  rewrite Hc. simpl. now rewrite version_with_number_unmatched.
Qed.

Lemma server_version_never_with_digits_witness :
  result parse_server_version (server_record version_769) = Ret None.
Proof.
  apply (server_version_never_with_digits (server_record version_769)
           (u "0.1.0") (u "abcdef12") (u "1.21.4") (u "769")).
  - split; [discriminate | reflexivity].
  - reflexivity.
Defined.

(** C4, amended. On a record that is not attributed to a player,
    [test_server_startup_done] returns true exactly when
    [parse_server_address] returns a host and a port or raises a
    [ValueError].  It raises a [ValueError] exactly on a record that is
    no user's and whose content is an address line with a port of more
    digits than [int] converts, 4300 of them.  So, when the content has
    at most 4300 characters and the record has no player, the test
    returns true exactly when the parser returns a host and a port.  On
    a record from the server with no player whose content is the address
    sentence for 0.0.0.0:25565, the address is ("0.0.0.0", 25565), the
    port an integer, and the test is true.  On a record attributed to a
    player, [parse_server_address] returns no match, and the test
    returns what it returns on the same record without the player. *)
Theorem startup_done_iff_address :
  (forall i, player i = None ->
     (result test_server_startup_done i = Ret true <->
      (exists host port,
         result parse_server_address i = Ret (Some (host, port))) \/
      (exists msg,
         result parse_server_address i = Raise (ValueError msg)))) /\
  (forall i,
     (exists msg, result parse_server_address i = Raise (ValueError msg)) <->
     is_user i = false /\
     exists host port,
       content i = Some (address_prefix ++ host ++ u ":" ++ port) /\
       host <> [] /\ all_chars not_space host = true /\
       number_text port /\ int_max_str_digits < length port) /\
  (forall i, player i = None -> short_content i ->
     (result test_server_startup_done i = Ret true <->
      exists host port,
        result parse_server_address i = Ret (Some (host, port)))) /\
  (forall i, source i = SERVER -> player i = None ->
     content i = Some address_line ->
     result parse_server_address i = Ret (Some (u "0.0.0.0", 25565%Z)) /\
     result test_server_startup_done i = Ret true) /\
  (forall i, player i <> None ->
     result parse_server_address i = Ret None /\
     result test_server_startup_done i
     = result test_server_startup_done (set_player None i)).
Proof.
  split; [exact startup_done_iff_address_unset|].
  split; [exact address_value_error|].
  split; [exact startup_done_iff_address_short|].
  split; [|exact address_of_player].
  intros i Hs Hp Hc.
  unfold result, test_server_startup_done, parse_server_address, bind, attr,
    is_user, is_player, is_from_server, is_from_console.
  rewrite Hp, Hs. simpl. rewrite Hc. split; vm_compute; reflexivity.
Qed.

Lemma startup_done_iff_address_witness :
  result parse_server_address (server_record address_line)
  = Ret (Some (u "0.0.0.0", 25565%Z)) /\
  result test_server_startup_done (server_record address_line) = Ret true.
Proof.
  apply (proj1 (proj2 (proj2 (proj2 startup_done_iff_address)))
           (server_record address_line) eq_refl eq_refl eq_refl).
Defined.

(** The address line has far fewer characters than the limit. *)
Example address_line_short : short_content (server_record address_line).
Proof.
  intros c H. injection H as <-. apply Nat.leb_le. vm_compute. reflexivity.
Qed.

(** C4 as stated fails on the record of a chat line: the sentence said by
    Alice passes the test of a finished startup, and gives no address. *)
Lemma startup_done_without_address :
  result test_server_startup_done chatted_address = Ret true /\
  result parse_server_address chatted_address = Ret None /\
  ~ (result test_server_startup_done chatted_address = Ret true <->
     exists host port,
       result parse_server_address chatted_address = Ret (Some (host, port))).
Proof.
  split; [reflexivity | split; [reflexivity|]].
  intros [H _]. destruct (H eq_refl) as (h & p & E). discriminate E.
Qed.

(** C5. [_verify_player_name] returns a boolean on every text, and true
    exactly on the texts of 3 to 16 characters that are all letters, digits
    or underscores: "ab", a text of 17 characters and "name!" are refused. *)
Theorem verify_player_name_spec (s : str) :
  (_verify_player_name s = true <->
   3 <= length s <= 16 /\ all_chars name_char s = true) /\
  _verify_player_name (u "ab") = false /\
  _verify_player_name seventeen = false /\
  _verify_player_name (u "name!") = false /\
  _verify_player_name (u "Steve_01") = true.
Proof.
  split; [apply verify_player_name_iff|].
  repeat split; reflexivity.
Qed.

(** C6. On a record from the server, "Steve joined the game" gives the
    name "Steve"; "S joined the game" gives no match; more generally a
    name that fails the validation gives no match, returned and not
    raised, and a name that is returned has passed the validation. *)
Theorem player_joined_examples :
  (forall i, is_user i = false -> content i = Some (u "Steve joined the game") ->
     result parse_player_joined i = Ret (Some (u "Steve"))) /\
  (forall i, content i = Some (u "S joined the game") ->
     result parse_player_joined i = Ret None) /\
  (forall i name, content i = Some (name ++ u " joined the game") ->
     _verify_player_name name = false ->
     result parse_player_joined i = Ret None) /\
  (forall i name, result parse_player_joined i = Ret (Some name) ->
     _verify_player_name name = true).
Proof.
  split; [|split; [|split]].
  - intros i Hu Hc. unfold result, parse_player_joined, bind, attr.
    rewrite Hu. simpl. rewrite Hc. reflexivity.
  - intros i Hc. now apply (joined_invalid_name i (u "S")).
  - exact joined_invalid_name.
  - exact joined_name_valid.
Qed.

Lemma player_joined_examples_witness :
  result parse_player_joined (server_record (u "Steve joined the game"))
  = Ret (Some (u "Steve")).
Proof.
  apply (proj1 player_joined_examples (server_record (u "Steve joined the game"))
           eq_refl eq_refl).
Defined.

(** C7. When the content parsed from a line of the server is
    [<chat> NAME: MESSAGE], [parse_server_stdout] returns the record with
    NAME as its player and MESSAGE as its content if NAME passes the name
    validation; if NAME (the text before the colon) fails it, the record
    is returned with no player and its content as it was. *)
Theorem chat_line_sets_player (clean : str -> str) (t : struct_time)
  (text : str) (r : Info) (name message : str) :
  super_parse_server_stdout clean t text = Ret r ->
  content r = Some (chat_line name message) ->
  (_verify_player_name name = true ->
   parse_server_stdout clean t text
   = Ret (set_content (Some message) (set_player (Some name) r))) /\
  (_verify_player_name name = false ->
   all_chars (not_char (ch ":")) name = true ->
   parse_server_stdout clean t text = Ret r /\ player r = None).
Proof.
  intros Hs Hc. unfold parse_server_stdout. rewrite Hs. unfold returning.
  destruct (super_parse_returns _ _ _ _ Hs) as (L & M & Hr & HM).
  assert (Hm : one_line message).
  { rewrite Hr in Hc. simpl in Hc. injection Hc as ->.
    unfold chat_line in HM. rewrite <- !append_assoc in HM.
    now apply one_line_app_r in HM. }
  split.
  - intros Hv. now rewrite (scan_chat_valid r name message Hc Hm Hv).
  - intros Hv Hcolon. rewrite (scan_chat_invalid r name message Hc Hcolon Hv).
    split; [reflexivity | now rewrite Hr].
Qed.

Lemma chat_line_sets_player_witness :
  parse_server_stdout as_it_is noon (u "[INFO] <chat> Alice: hello world")
  = Ret (mkInfo SERVER (u "[INFO] <chat> Alice: hello world") (Some (u "hello world"))
                (Some (u "Alice")) (Some 12%Z) (Some 0%Z) (Some 0%Z) (Some (u "INFO"))).
Proof.
  apply (proj1 (chat_line_sets_player as_it_is noon
                  (u "[INFO] <chat> Alice: hello world")
                  (mkInfo SERVER (u "[INFO] <chat> Alice: hello world")
                          (Some (u "<chat> Alice: hello world")) None
                          (Some 12%Z) (Some 0%Z) (Some 0%Z) (Some (u "INFO")))
                  (u "Alice") (u "hello world") eq_refl eq_refl)).
  reflexivity.
Defined.

(** A name of two letters: the record keeps its content and has no player. *)
Example chat_line_short_name :
  parse_server_stdout as_it_is noon (u "[INFO] <chat> Al: hello")
  = Ret (mkInfo SERVER (u "[INFO] <chat> Al: hello") (Some (u "<chat> Al: hello"))
                None (Some 12%Z) (Some 0%Z) (Some 0%Z) (Some (u "INFO"))).
Proof. reflexivity. Qed.

Section Commands.

Context {RTextBase ServerInformation : Type} (to_json_str : RTextBase -> str).

(** C8, amended. A plain message is formatted as a compact JSON string
    literal: a quote, the escaped text, a quote and nothing else; read
    back as JSON it is the message; a text without quotes, backslashes and
    characters below U+0020 stands between the quotes as it is, and so does
    every character that is not ASCII; "hi" gives the four characters
    quote, h, i, quote. *)
Theorem format_message_plain (s : str) :
  format_message to_json_str (Plain s) = quote :: escape s ++ [quote] /\
  json_string_value (format_message to_json_str (Plain s)) = Some s /\
  (all_chars plain_char s = true ->
   format_message to_json_str (Plain s) = quote :: s ++ [quote]) /\
  (forall a, (128 <= a)%N -> escape_char a = [a]) /\
  format_message to_json_str (Plain (u "hi")) = quote :: u "hi" ++ [quote] /\
  length (format_message to_json_str (Plain (u "hi"))) = 4.
Proof.
  repeat split.
  - simpl. unfold json_dumps. simpl. apply read_escaped.
  - intros H. simpl. unfold json_dumps. now rewrite escape_plain.
  - intros a H. apply escape_plain_char. now apply non_ascii_plain.
Qed.

(** C9. [get_send_message_command] gives "tellraw", the target and the
    formatted message, separated by single blanks, and
    [get_broadcast_message_command] gives the same text as a send to "@a". *)
Theorem send_and_broadcast_commands (target : str)
  (message : MessageText RTextBase) (info : ServerInformation) :
  get_send_message_command to_json_str target message info
  = u "tellraw " ++ target ++ u " " ++ format_message to_json_str message /\
  get_broadcast_message_command to_json_str message info
  = get_send_message_command to_json_str (u "@a") message info /\
  get_send_message_command to_json_str (u "@a") (Plain (u "hi")) info
  = u "tellraw @a " ++ quote :: u "hi" ++ [quote].
Proof. repeat split; reflexivity. Qed.

End Commands.

Lemma format_message_plain_witness :
  format_message (fun _ : unit => []) (Plain (u "hi"))
  = quote :: u "hi" ++ [quote].
Proof.
  apply (proj1 (proj2 (proj2 (format_message_plain
                                (fun _ : unit => []) (u "hi"))))).
  reflexivity.
Defined.

(** C8 as stated fails on its own example: the text for "hi" is not of
    five characters. *)
Lemma plain_hi_is_not_five_characters :
  length (format_message (fun _ : unit => []) (Plain (u "hi"))) <> 5.
Proof. vm_compute. discriminate. Qed.

(** C10. The seven queries leave the record they are given as it was,
    whatever they return. *)
Theorem queries_leave_record_unchanged (i : Info) :
  after parse_player_joined i = i /\
  after parse_player_left i = i /\
  after parse_server_version i = i /\
  after parse_server_address i = i /\
  after test_server_startup_done i = i /\
  after test_rcon_started i = i /\
  after test_server_stopping i = i.
Proof.
  repeat split.
  - apply read_only_parse_player_joined.
  - apply read_only_parse_player_left.
  - apply read_only_parse_server_version.
  - apply read_only_parse_server_address.
  - apply read_only_test_server_startup_done.
  - apply read_only_test_rcon_started.
  - apply read_only_test_server_stopping.
Qed.

(** X1. The content parser does all or nothing on every record: it raises
    and leaves the record as it was, or returns with the level, the
    message and the time all set. *)
Theorem content_parse_all_or_nothing (t : struct_time) (i : Info) :
  (exists e, _content_parse t i = (Raise e, i)) \/
  (exists level message,
     _content_parse t i = (Ret tt, parsed_record t i level message)).
Proof.
  destruct (content i) as [c|] eqn:Hc.
  - destruct (fullmatch get_content_parsing_formatter c) as [x|] eqn:E.
    + right. apply content_formatter_inv in E as E'.
      destruct E' as (L & M & -> & _). exists L, M.
      exact (content_parse_of_match t i c L M Hc E).
    + left. eexists. exact (content_parse_unmatched t i c Hc E).
  - left. eexists. unfold _content_parse, bind, attr. rewrite Hc. reflexivity.
Qed.

(** X3. Every line [[LEVEL] MESSAGE] is accepted: the content kept is MESSAGE,
    or what follows the tag when MESSAGE opens with a numeric tag. *)
Theorem every_log_line_is_parsed (t : struct_time) (i : Info)
  (level message : str) :
  level_text level -> one_line message ->
  content i = Some (u "[" ++ level ++ u "] " ++ message) ->
  exists kept,
    _content_parse t i = (Ret tt, parsed_record t i level kept) /\
    (~ tagged message -> kept = message) /\
    (forall n rest, number_text n -> message = u "(" ++ n ++ u ") " ++ rest ->
                    kept = rest).
Proof.
  intros HL HM Hc.
  destruct (tag_split message) as [[n rest]|] eqn:E.
  - apply tag_split_some in E as [Hn ->]. exists rest. split; [|split].
    + apply (content_parse_of_match t i _ level rest Hc).
      change (u "[" ++ level ++ u "] " ++ u "(" ++ n ++ u ") " ++ rest)
        with (u "[" ++ level ++ u "]" ++ u " (" ++ n ++ u ") " ++ rest).
      replace (u "[" ++ level ++ u "]" ++ u " (" ++ n ++ u ") " ++ rest)
        with (log_line level (Some n) rest).
      * apply content_formatter_match; [exact HL | | exact Hn].
        unfold one_line in *. rewrite !all_chars_app in HM.
        repeat (apply andb_true_iff in HM as [_ HM]). exact HM.
      * unfold log_line. now rewrite !append_assoc.
    + intros Hnot. exfalso. apply Hnot. now exists n, rest.
    + intros n' rest' [_ Hd'] E'. simpl in E'. injection E' as E'.
      destruct Hn as [_ Hd].
      apply cut_unique in E' as [_ E'].
      * now injection E'.
      * exact (all_chars_impl _ _ _ digit_not_paren Hd).
      * exact (all_chars_impl _ _ _ digit_not_paren Hd').
  - apply tag_split_none in E. exists message. split; [|split].
    + apply (content_parse_of_match t i _ level message Hc).
      now apply (content_formatter_match level None message).
    + reflexivity.
    + intros n rest Hn ->. exfalso. apply E. now exists n, rest.
Qed.

Lemma every_log_line_is_parsed_witness :
  exists kept,
    _content_parse noon (server_record (u "[INFO] (1) hello"))
    = (Ret tt, parsed_record noon (server_record (u "[INFO] (1) hello")) (u "INFO") kept) /\
    (~ tagged (u "(1) hello") -> kept = u "(1) hello") /\
    (forall n rest, number_text n -> (u "(1) hello") = u "(" ++ n ++ u ") " ++ rest ->
                    kept = rest).
Proof.
  apply (every_log_line_is_parsed noon (server_record (u "[INFO] (1) hello"))
           (u "INFO") (u "(1) hello")).
  - split; [discriminate | reflexivity].
  - reflexivity.
  - reflexivity.
Defined.

(** * Further properties of the handler *)

(** X4. [parse_server_stdout] returns a record exactly when the cleaned
    text is [[LEVEL] MESSAGE], with a level that is not empty and holds no
    [']'] and a message on one line; when it raises, it raises the
    [ValueError] that carries the cleaned text. *)
Theorem parse_server_stdout_accepts (clean : str -> str)
  (t : struct_time) (text : str) :
  ((exists r, parse_server_stdout clean t text = Ret r) <->
   (exists L M, level_text L /\ one_line M /\
                clean text = u "[" ++ L ++ u "] " ++ M)) /\
  (forall e, parse_server_stdout clean t text = Raise e ->
             e = ValueError (u "Unrecognized input: " ++ clean text)).
Proof. apply stdout_accepts_fact. Qed.

(** X5. A record returned by [parse_server_stdout] is from the server,
    keeps the text as its raw content, bears the time of the call and the
    level of the line; either it has no player and the whole message as
    content, the message being no chat line of a valid name, or the
    message is a chat line of a valid name, which is its player, and its
    content is what that player said. *)
Theorem parse_server_stdout_record (clean : str -> str)
  (t : struct_time) (text : str) (r : Info) :
  parse_server_stdout clean t text = Ret r ->
  source r = SERVER /\ raw_content r = text /\
  hour r = Some (tm_hour t) /\ min r = Some (tm_min t) /\
  sec r = Some (tm_sec t) /\
  exists L tag M,
    clean text = log_line L tag M /\ level_text L /\ one_line M /\
    logging_level r = Some L /\
    ((player r = None /\ content r = Some M /\
      forall n msg, M = chat_line n msg -> all_chars (not_char (ch ":")) n = true ->
                    _verify_player_name n = false) \/
     (exists n msg, M = chat_line n msg /\ _verify_player_name n = true /\
                    player r = Some n /\ content r = Some msg)).
Proof. apply stdout_record_fact. Qed.

Lemma parse_server_stdout_record_witness :
  source (mkInfo SERVER (u "[INFO] Steve joined the game")
            (Some (u "Steve joined the game")) None (Some 12%Z) (Some 0%Z)
            (Some 0%Z) (Some (u "INFO"))) = SERVER /\
  raw_content (mkInfo SERVER (u "[INFO] Steve joined the game")
                 (Some (u "Steve joined the game")) None (Some 12%Z) (Some 0%Z)
                 (Some 0%Z) (Some (u "INFO")))
  = u "[INFO] Steve joined the game".
Proof.
  pose proof (parse_server_stdout_record as_it_is noon
                (u "[INFO] Steve joined the game")
                (mkInfo SERVER (u "[INFO] Steve joined the game")
                   (Some (u "Steve joined the game")) None (Some 12%Z) (Some 0%Z)
                   (Some 0%Z) (Some (u "INFO"))) eq_refl) as H.
  exact (conj (proj1 H) (proj1 (proj2 H))).
Defined.

(** X6. [parse_player_joined] returns a name exactly on a record that is
    no user's and whose content is that name followed by
    " joined the game", the name passing the validation. *)
Theorem parse_player_joined_iff (i : Info) (n : str) :
  result parse_player_joined i = Ret (Some n) <->
  is_user i = false /\ content i = Some (n ++ u " joined the game") /\
  _verify_player_name n = true.
Proof. apply joined_fact. Qed.

(** X7. [parse_player_left] returns a name exactly on a record that is no
    user's and whose content is that name followed by " left the game",
    the name passing the validation. *)
Theorem parse_player_left_iff (i : Info) (n : str) :
  result parse_player_left i = Ret (Some n) <->
  is_user i = false /\ content i = Some (n ++ u " left the game") /\
  _verify_player_name n = true.
Proof. apply left_fact. Qed.

(** X8. [parse_server_address] returns a host and a number exactly on a
    record that is no user's and whose content is the address sentence,
    the host, a colon and a port in digits, where the host is not empty
    and holds no white space, the port has no more digits than [int]
    converts, 4300 of them, and the number is what the digits denote:
    the host is everything up to the last colon.  White space and digits
    are those of the interpreter, Unicode included. *)
Theorem parse_server_address_iff (i : Info) (host : str) (number : Z) :
  result parse_server_address i = Ret (Some (host, number)) <->
  is_user i = false /\
  exists port,
    content i = Some (address_prefix ++ host ++ u ":" ++ port) /\
    host <> [] /\ all_chars not_space host = true /\
    number_text port /\ length port <= int_max_str_digits /\
    number = decimal port.
Proof. apply address_fact. Qed.

(** A port in Arabic-Indic digits is a number as well. *)
Example parse_server_address_arabic_indic :
  result parse_server_address
    (server_record (address_prefix ++ u "0.0.0.0:" ++ [1634; 1637]%N))
  = Ret (Some (u "0.0.0.0", 25%Z)).
Proof. vm_compute. reflexivity. Qed.

(** A no-break space is white space: no host holds one. *)
Example parse_server_address_no_break_space :
  result parse_server_address
    (server_record (address_prefix ++ u "a" ++ [160%N] ++ u "b:25"))
  = Ret None.
Proof. vm_compute. reflexivity. Qed.

(** A port of 4301 digits: the line passes the test of a finished
    startup, and [int] refuses the port. *)
Example parse_server_address_long_port :
  result test_server_startup_done
    (server_record (address_prefix ++ u "h:" ++ repeat (ch "1") 4301))
  = Ret true /\
  result parse_server_address
    (server_record (address_prefix ++ u "h:" ++ repeat (ch "1") 4301))
  = Raise (ValueError
             (u "Exceeds the limit (4300 digits) for integer string conversion: value has 4301 digits; use sys.set_int_max_str_digits() to increase the limit")).
Proof. split; vm_compute; reflexivity. Qed.

(** A host with colons of its own. *)
Example parse_server_address_brackets :
  result parse_server_address
    (server_record (address_prefix ++ u "[::1]:25565"))
  = Ret (Some (u "[::1]", 25565%Z)).
Proof. reflexivity. Qed.

(** X9. [test_server_startup_done] is true exactly on a record from the
    server whose content is the address sentence, a host without white
    space, a colon and a port in digits. *)
Theorem test_server_startup_done_iff (i : Info) :
  result test_server_startup_done i = Ret true <->
  source i = SERVER /\
  exists host port,
    content i = Some (address_prefix ++ host ++ u ":" ++ port) /\
    host <> [] /\ all_chars not_space host = true /\
    number_text port.
Proof. apply startup_fact. Qed.

(** X10. [test_rcon_started] is true exactly on a record from the server
    whose content is "RCON running on ", a host made of letters, digits,
    underscores and dots, a colon and a port in digits; letters and
    digits are those of the interpreter, Unicode included. *)
Theorem test_rcon_started_iff (i : Info) :
  result test_rcon_started i = Ret true <->
  source i = SERVER /\
  exists host port,
    content i = Some (rcon_prefix ++ host ++ u ":" ++ port) /\
    host <> [] /\ all_chars rcon_host_char host = true /\
    number_text port.
Proof. apply rcon_fact. Qed.

(** A host with an accented letter is taken. *)
Example test_rcon_started_accent :
  result test_rcon_started
    (server_record (u "RCON running on caf" ++ [233%N] ++ u ":25575"))
  = Ret true.
Proof. vm_compute. reflexivity. Qed.

(** A host with a hyphen is not taken. *)
Example test_rcon_started_hyphen :
  result test_rcon_started (server_record (u "RCON running on my-host:25575"))
  = Ret false.
Proof. reflexivity. Qed.

(** X11. [test_server_stopping] is true exactly on a record from the
    server whose content is "Stopping the server", no more and no less. *)
Theorem test_server_stopping_iff (i : Info) :
  result test_server_stopping i = Ret true <->
  source i = SERVER /\ content i = Some (u "Stopping the server").
Proof. apply stopping_fact. Qed.

(** X12. On one record no two of these happen together: a player
    joined, a player left, a version, an address, RCON started, the
    server stopping. *)
Theorem events_exclude_each_other (i : Info) :
  ForallOrdPairs (fun P Q => ~ (P /\ Q)) (events i).
Proof. apply events_exclusive_fact. Qed.

(** X13. When a query raises.  The parsers of a joining player, of a
    leaving player and of the version raise exactly on a record that is
    no user's and has no content; [parse_server_address] raises exactly
    on a record that is no user's and either has no content or is an
    address line whose port has more digits than [int] converts, 4300 of
    them; the three tests raise exactly on a record from the server
    without content. *)
Theorem queries_raise_exactly_when (i : Info) :
  (raises parse_player_joined i <-> content i = None /\ is_user i = false) /\
  (raises parse_player_left i <-> content i = None /\ is_user i = false) /\
  (raises parse_server_version i <-> content i = None /\ is_user i = false) /\
  (raises parse_server_address i <->
   is_user i = false /\
   (content i = None \/
    exists host port,
      content i = Some (address_prefix ++ host ++ u ":" ++ port) /\
      host <> [] /\ all_chars not_space host = true /\
      number_text port /\ int_max_str_digits < length port)) /\
  (raises test_server_startup_done i <-> content i = None /\ source i = SERVER) /\
  (raises test_rcon_started i <-> content i = None /\ source i = SERVER) /\
  (raises test_server_stopping i <-> content i = None /\ source i = SERVER).
Proof. apply queries_raise_fact. Qed.

(** X14. What a player says in the chat gives none of the parsed events
    (joined, left, version, address), whatever the words; the three tests
    answer on it as on the same words printed by the server, so that the
    stop sentence, an address line or an RCON line typed by a player
    passes them. *)
Theorem chat_message_reaches_only_the_tests (clean : str -> str)
  (t : struct_time) (level name msg : str) :
  level_text level -> _verify_player_name name = true -> one_line msg ->
  clean (log_line level None (chat_line name msg))
  = log_line level None (chat_line name msg) ->
  exists r,
    parse_server_stdout clean t (log_line level None (chat_line name msg)) = Ret r /\
    player r = Some name /\ content r = Some msg /\
    result parse_player_joined r = Ret None /\
    result parse_player_left r = Ret None /\
    result parse_server_version r = Ret None /\
    result parse_server_address r = Ret None /\
    (result test_server_stopping r = Ret true <-> msg = u "Stopping the server") /\
    (result test_server_startup_done r = Ret true <->
     exists host port,
       msg = address_prefix ++ host ++ u ":" ++ port /\ host <> [] /\
       all_chars not_space host = true /\ number_text port) /\
    (result test_rcon_started r = Ret true <->
     exists host port,
       msg = rcon_prefix ++ host ++ u ":" ++ port /\ host <> [] /\
       all_chars rcon_host_char host = true /\ number_text port).
Proof. apply chat_reaches_tests_fact. Qed.

Lemma chat_message_reaches_only_the_tests_witness :
  exists r,
    parse_server_stdout as_it_is noon
      (u "[INFO] <chat> Alice: Stopping the server") = Ret r /\
    player r = Some (u "Alice") /\
    result test_server_stopping r = Ret true.
Proof.
  assert (HL : level_text (u "INFO")) by (split; [discriminate | reflexivity]).
  destruct (chat_message_reaches_only_the_tests as_it_is noon (u "INFO") (u "Alice")
              (u "Stopping the server") HL eq_refl eq_refl eq_refl)
    as (r & Hr & Hp & _ & _ & _ & _ & _ & Hs & _).
  exists r. split; [exact Hr|]. split; [exact Hp|]. now apply Hs.
Defined.

Section PlainCommandsStated.

Context {RTextBase ServerInformation : Type} (to_json_str : RTextBase -> str).


End PlainCommandsStated.

(** The delete character, U+007F, is left as it is. *)
Example format_message_delete :
  format_message (fun _ : unit => []) (Plain [127%N]) = [quote; 127%N; quote].
Proof. reflexivity. Qed.

(** A message of two lines, sent on one. *)
Example broadcast_two_lines :
  get_broadcast_message_command (fun _ : unit => [])
    (Plain (ch "a" :: line_feed :: u "b")) tt
  = u "tellraw @a " ++ quote :: u "a\nb" ++ [quote].
Proof. reflexivity. Qed.

(** X16. [parse_server_version] returns a version exactly on a record
    that is no user's and whose content is a version line with a build of
    eight characters and a protocol field made of the letter [d]: this is
    all that the pattern lets through. *)
Theorem parse_server_version_iff (i : Info) (v : str) :
  result parse_server_version i = Ret (Some v) <->
  is_user i = false /\
  exists ver build protocol,
    content i = Some (version_line ver build v protocol) /\
    version_fields ver build v protocol.
Proof. apply version_fact. Qed.

